(** * volk_32f_stddev_and_mean_32f_x2: mean and standard deviation kernels

    A shallow embedding of the five protokernels of
    [kernels/volk/volk_32f_stddev_and_mean_32f_x2.h]
    (generic, a_sse, a_sse4_1, a_avx, u_avx) and the properties that relate
    them.

    - [unsigned int] values are integers in [Z] with the 32-bit wrap-around
      written out where the source multiplies.
    - [float] arithmetic is an interface ([FloatOps]); the kernels are written
      once over the interface, the way the C text is the same for every
      target.  Two instances are given: IEEE-754 binary32 on 32-bit patterns
      (round to nearest even, built on the standard library's [SpecFloat]),
      and exact integer arithmetic, which is used to separate what the
      algorithm computes from what rounding does to it.
    - Every C operation on [float] is one correctly rounded binary32
      operation (no contraction into fused multiply-add, no excess
      precision), and [sqrtf] is correctly rounded.  NaN payloads and the
      sign of a NaN are not tracked: every NaN result is the one pattern
      [B32.nan_bits].
    - The intrinsics follow the instruction set reference: lane-wise ADDPS,
      MULPS and ORPS, and DPPS with its immediate, applied to each 128-bit
      group by the 256-bit forms.
    - The input buffer is a [list] of floats, [aPtr] is an element offset into
      it, and every load returns [option]: [None] is a read outside the
      buffer.  The alignment asked by the aligned loads is a caller
      obligation and is not modelled, so [a_avx] and [u_avx] are the same
      function of the buffer contents. *)

From Stdlib Require Import ZArith List Lia Bool QArith Qabs Permutation Lqa.
From Stdlib Require Import SpecFloat.
From AAC_tactics Require Import AAC.
Import ListNotations.
Local Open Scope Z_scope.

(** ** Unsigned 32-bit integers *)

Definition UINT_MODULUS : Z := 2 ^ 32.

Definition wrap32 (z : Z) : Z := z mod UINT_MODULUS.

(** [a * b] on [unsigned int]. *)
Definition uint_mul (a b : Z) : Z := wrap32 (a * b).

(** [a / b] on [unsigned int] (the divisors of the source are the
    constants 4, 16 and 32). *)
Definition uint_div (a b : Z) : Z := a / b.

(** ** Option sequencing *)

Definition obind {A B : Type} (o : option A) (k : A -> option B) : option B :=
  match o with
  | Some a => k a
  | None => None
  end.

Notation "x <- e ;; k" := (obind e (fun x => k))
  (at level 61, e at next level, right associativity).

(** [for (; number < bound; number++) body], for a body that neither reads
    nor writes [number] and a counter that cannot overflow before it reaches
    [bound]: the body runs [bound - number] times (no time when
    [bound <= number]), and the loop stops at the first failing load. *)
Fixpoint iterate {S : Type} (n : nat) (body : S -> option S) (s : S) : option S :=
  match n with
  | O => Some s
  | Datatypes.S n' => s' <- body s ;; iterate n' body s'
  end.

Definition for_count (number bound : Z) : nat := Z.to_nat (bound - number).

(** ** The floating-point interface *)

Class FloatOps (F : Type) : Type := {
  f_zero : F;                 (* the literal 0 and the lanes of setzero *)
  f_add : F -> F -> F;        (* + *)
  f_sub : F -> F -> F;        (* - *)
  f_mul : F -> F -> F;        (* * *)
  f_div : F -> F -> F;        (* / *)
  f_sqrt : F -> F;            (* sqrtf *)
  f_of_uint : Z -> F;         (* conversion of an unsigned int to float *)
  f_or : F -> F -> F          (* bitwise or of the representations *)
}.

(** ** Vector registers and intrinsics *)

Section Kernels.
Context {F : Type} {ops : FloatOps F}.

(** [__m128]: four lanes, lane 0 at the lowest address. *)
Record m128 : Type := mk128 { v0 : F; v1 : F; v2 : F; v3 : F }.

(** [__m256]: two 128-bit groups; lanes 0..3 are [lo128], 4..7 [hi128]. *)
Record m256 : Type := mk256 { lo128 : m128; hi128 : m128 }.

Definition _mm_setzero_ps : m128 := mk128 f_zero f_zero f_zero f_zero.

Definition map2_128 (op : F -> F -> F) (a b : m128) : m128 :=
  mk128 (op (v0 a) (v0 b)) (op (v1 a) (v1 b))
        (op (v2 a) (v2 b)) (op (v3 a) (v3 b)).

Definition _mm_add_ps : m128 -> m128 -> m128 := map2_128 f_add.
Definition _mm_mul_ps : m128 -> m128 -> m128 := map2_128 f_mul.
Definition _mm_or_ps : m128 -> m128 -> m128 := map2_128 f_or.

(** DPPS: bits 4..7 of [imm8] select the products that enter the sum,
    bits 0..3 the lanes that receive it; every other lane is +0.0. *)
Definition _mm_dp_ps (a b : m128) (imm8 : Z) : m128 :=
  let prod (j : Z) (x y : F) :=
    if Z.testbit imm8 (4 + j) then f_mul x y else f_zero in
  let t0 := prod 0 (v0 a) (v0 b) in
  let t1 := prod 1 (v1 a) (v1 b) in
  let t2 := prod 2 (v2 a) (v2 b) in
  let t3 := prod 3 (v3 a) (v3 b) in
  let sum := f_add (f_add t0 t1) (f_add t2 t3) in
  let out (j : Z) := if Z.testbit imm8 j then sum else f_zero in
  mk128 (out 0) (out 1) (out 2) (out 3).

Definition _mm256_setzero_ps : m256 := mk256 _mm_setzero_ps _mm_setzero_ps.

Definition _mm256_add_ps (a b : m256) : m256 :=
  mk256 (_mm_add_ps (lo128 a) (lo128 b)) (_mm_add_ps (hi128 a) (hi128 b)).

Definition _mm256_or_ps (a b : m256) : m256 :=
  mk256 (_mm_or_ps (lo128 a) (lo128 b)) (_mm_or_ps (hi128 a) (hi128 b)).

(** VDPPS on 256 bits is DPPS on each 128-bit group separately. *)
Definition _mm256_dp_ps (a b : m256) (imm8 : Z) : m256 :=
  mk256 (_mm_dp_ps (lo128 a) (lo128 b) imm8)
        (_mm_dp_ps (hi128 a) (hi128 b) imm8).

(** *** Memory *)

Definition buffer : Type := list F.

(** [*aPtr] *)
Definition deref (buf : buffer) (p : nat) : option F := nth_error buf p.

(** Four consecutive floats starting at [p].  The alignment that
    [_mm_load_ps] asks of the address is a caller obligation outside this
    model. *)
Definition _mm_load_ps (buf : buffer) (p : nat) : option m128 :=
  match skipn p buf with
  | a :: b :: c :: d :: _ => Some (mk128 a b c d)
  | _ => None
  end.

(** Eight consecutive floats starting at [p], no alignment asked. *)
Definition _mm256_loadu_ps (buf : buffer) (p : nat) : option m256 :=
  l <- _mm_load_ps buf p ;;
  h <- _mm_load_ps buf (p + 4) ;;
  Some (mk256 l h).

(** Same data as [_mm256_loadu_ps]; the 32-byte alignment it asks for is a
    caller obligation outside this model. *)
Definition _mm256_load_ps (buf : buffer) (p : nat) : option m256 :=
  _mm256_loadu_ps buf p.

(** [_mm_store_ps buffer v] followed by the unrolled
    [x = buffer[0]; x += buffer[1]; ...]. *)
Definition _mm_store_ps (v : m128) : list F := [v0 v; v1 v; v2 v; v3 v].

Definition _mm256_store_ps (v : m256) : list F :=
  _mm_store_ps (lo128 v) ++ _mm_store_ps (hi128 v).

Definition sum_buffer (b : list F) : F :=
  match b with
  | [] => f_zero
  | x :: r => fold_left f_add r x
  end.

(** *** Kernel states *)

(** The locals of the scalar loop: [aPtr], the running sum of squares
    ([returnValue], called [stdDev] in the AVX kernels) and the running sum
    ([newMean]). *)
Record scalar_state : Type := mk_scalar {
  aPtr : nat;
  returnValue : F;
  newMean : F
}.

(** The locals of a vector loop over registers of type [V]. *)
Record vector_state (V : Type) : Type := mk_vector {
  vPtr : nat;
  accumulator : V;
  squareAccumulator : V
}.
Arguments mk_vector {V} _ _ _.
Arguments vPtr {V} _.
Arguments accumulator {V} _.
Arguments squareAccumulator {V} _.

(** The two outputs, [*stddev] and [*mean]. *)
Record outputs : Type := mk_outputs { stddev : F; mean : F }.

(** One step of the scalar loop: the square of the float under [aPtr] is
    added to [returnValue], the float itself to [newMean], and [aPtr] moves
    to the next float. *)
Definition scalar_body (buf : buffer) (s : scalar_state) : option scalar_state :=
  x <- deref buf (aPtr s) ;;
  Some (mk_scalar (Datatypes.S (aPtr s))
                  (f_add (returnValue s) (f_mul x x))
                  (f_add (newMean s) x)).

(** [newMean /= num_points; returnValue /= num_points;
     returnValue -= (newMean * newMean); returnValue = sqrtf(returnValue);] *)
Definition finalize (num_points : Z) (s : scalar_state) : outputs :=
  let newMean' := f_div (newMean s) (f_of_uint num_points) in
  let rv1 := f_div (returnValue s) (f_of_uint num_points) in
  let rv2 := f_sub rv1 (f_mul newMean' newMean') in
  mk_outputs (f_sqrt rv2) newMean'.

(** [float returnValue = 0; float newMean = 0;
     if (num_points > 0) { ... } *stddev = returnValue; *mean = newMean;] *)
Definition kernel (run : buffer -> Z -> option scalar_state)
           (buf : buffer) (num_points : Z) : option outputs :=
  if 0 <? num_points then
    s <- run buf num_points ;;
    Some (finalize num_points s)
  else Some (mk_outputs f_zero f_zero).

(** *** generic *)

Definition generic_run (buf : buffer) (num_points : Z) : option scalar_state :=
  iterate (for_count 0 num_points) (scalar_body buf)
          (mk_scalar O f_zero f_zero).

Definition volk_32f_stddev_and_mean_32f_x2_generic :=
  kernel generic_run.

(** *** The scalar tail shared by the vector kernels *)

(** [number = groups * step; for (; number < num_points; number++) ...] *)
Definition tail_count (groups step num_points : Z) : nat :=
  for_count (uint_mul groups step) num_points.

(** *** a_sse *)

Definition quarterPoints (num_points : Z) : Z := uint_div num_points 4.

Definition a_sse_body (buf : buffer) (s : vector_state m128)
  : option (vector_state m128) :=
  aVal <- _mm_load_ps buf (vPtr s) ;;
  let acc := _mm_add_ps (accumulator s) aVal in
  let aVal' := _mm_mul_ps aVal aVal in
  let sq := _mm_add_ps (squareAccumulator s) aVal' in
  Some (mk_vector (vPtr s + 4)%nat acc sq).

Definition vector_init128 : vector_state m128 :=
  mk_vector O _mm_setzero_ps _mm_setzero_ps.

Definition a_sse_vector_loop (buf : buffer) (num_points : Z)
  : option (vector_state m128) :=
  iterate (for_count 0 (quarterPoints num_points)) (a_sse_body buf)
          vector_init128.

(** The stores and the unrolled sums that follow the vector loop. *)
Definition reduce128 (s : vector_state m128) : scalar_state :=
  mk_scalar (vPtr s)
            (sum_buffer (_mm_store_ps (squareAccumulator s)))
            (sum_buffer (_mm_store_ps (accumulator s))).

Definition a_sse_run (buf : buffer) (num_points : Z) : option scalar_state :=
  vs <- a_sse_vector_loop buf num_points ;;
  iterate (tail_count (quarterPoints num_points) 4 num_points)
          (scalar_body buf) (reduce128 vs).

Definition volk_32f_stddev_and_mean_32f_x2_a_sse := kernel a_sse_run.

(** *** a_sse4_1 *)

Definition sixteenthPoints (num_points : Z) : Z := uint_div num_points 16.

Definition a_sse4_1_body (buf : buffer) (s : vector_state m128)
  : option (vector_state m128) :=
  let p := vPtr s in
  let acc := accumulator s in
  aVal1 <- _mm_load_ps buf p ;;
  let p := (p + 4)%nat in
  let cVal1 := _mm_dp_ps aVal1 aVal1 0xF1 in
  let acc := _mm_add_ps acc aVal1 in
  aVal2 <- _mm_load_ps buf p ;;
  let p := (p + 4)%nat in
  let cVal2 := _mm_dp_ps aVal2 aVal2 0xF2 in
  let acc := _mm_add_ps acc aVal2 in
  aVal3 <- _mm_load_ps buf p ;;
  let p := (p + 4)%nat in
  let cVal3 := _mm_dp_ps aVal3 aVal3 0xF4 in
  let acc := _mm_add_ps acc aVal3 in
  aVal4 <- _mm_load_ps buf p ;;
  let p := (p + 4)%nat in
  let cVal4 := _mm_dp_ps aVal4 aVal4 0xF8 in
  let acc := _mm_add_ps acc aVal4 in
  let cVal1 := _mm_or_ps cVal1 cVal2 in
  let cVal3 := _mm_or_ps cVal3 cVal4 in
  let cVal1 := _mm_or_ps cVal1 cVal3 in
  Some (mk_vector p acc (_mm_add_ps (squareAccumulator s) cVal1)).

Definition a_sse4_1_vector_loop (buf : buffer) (num_points : Z)
  : option (vector_state m128) :=
  iterate (for_count 0 (sixteenthPoints num_points)) (a_sse4_1_body buf)
          vector_init128.

Definition a_sse4_1_run (buf : buffer) (num_points : Z)
  : option scalar_state :=
  vs <- a_sse4_1_vector_loop buf num_points ;;
  iterate (tail_count (sixteenthPoints num_points) 16 num_points)
          (scalar_body buf) (reduce128 vs).

Definition volk_32f_stddev_and_mean_32f_x2_a_sse4_1 := kernel a_sse4_1_run.

(** *** a_avx and u_avx: the same text but for the load instruction *)

Definition thirtySecondthPoints (num_points : Z) : Z :=
  uint_div num_points 32.

Definition avx_body (load : buffer -> nat -> option m256)
           (buf : buffer) (s : vector_state m256)
  : option (vector_state m256) :=
  let p := vPtr s in
  let acc := accumulator s in
  aVal1 <- load buf p ;;
  let p := (p + 8)%nat in
  let cVal1 := _mm256_dp_ps aVal1 aVal1 0xF1 in
  let acc := _mm256_add_ps acc aVal1 in
  aVal2 <- load buf p ;;
  let p := (p + 8)%nat in
  let cVal2 := _mm256_dp_ps aVal2 aVal2 0xF2 in
  let acc := _mm256_add_ps acc aVal2 in
  aVal3 <- load buf p ;;
  let p := (p + 8)%nat in
  let cVal3 := _mm256_dp_ps aVal3 aVal3 0xF4 in
  let acc := _mm256_add_ps acc aVal3 in
  aVal4 <- load buf p ;;
  let p := (p + 8)%nat in
  let cVal4 := _mm256_dp_ps aVal4 aVal4 0xF8 in
  let acc := _mm256_add_ps acc aVal4 in
  let cVal1 := _mm256_or_ps cVal1 cVal2 in
  let cVal3 := _mm256_or_ps cVal3 cVal4 in
  let cVal1 := _mm256_or_ps cVal1 cVal3 in
  Some (mk_vector p acc (_mm256_add_ps (squareAccumulator s) cVal1)).

Definition vector_init256 : vector_state m256 :=
  mk_vector O _mm256_setzero_ps _mm256_setzero_ps.

Definition avx_vector_loop (load : buffer -> nat -> option m256)
           (buf : buffer) (num_points : Z) : option (vector_state m256) :=
  iterate (for_count 0 (thirtySecondthPoints num_points))
          (avx_body load buf) vector_init256.

Definition reduce256 (s : vector_state m256) : scalar_state :=
  mk_scalar (vPtr s)
            (sum_buffer (_mm256_store_ps (squareAccumulator s)))
            (sum_buffer (_mm256_store_ps (accumulator s))).

Definition avx_run (load : buffer -> nat -> option m256)
           (buf : buffer) (num_points : Z) : option scalar_state :=
  vs <- avx_vector_loop load buf num_points ;;
  iterate (tail_count (thirtySecondthPoints num_points) 32 num_points)
          (scalar_body buf) (reduce256 vs).

Definition a_avx_run := avx_run _mm256_load_ps.
Definition u_avx_run := avx_run _mm256_loadu_ps.

Definition volk_32f_stddev_and_mean_32f_x2_a_avx := kernel a_avx_run.
Definition volk_32f_stddev_and_mean_32f_x2_u_avx := kernel u_avx_run.

End Kernels.

Arguments m128 F : clear implicits.
Arguments m256 F : clear implicits.
Arguments buffer F : clear implicits.
Arguments scalar_state F : clear implicits.
Arguments outputs F : clear implicits.
Arguments mk_vector {V} _ _ _.
Arguments vPtr {V} _.
Arguments accumulator {V} _.
Arguments squareAccumulator {V} _.

(** ** IEEE-754 binary32 on 32-bit patterns *)

Module B32.

Definition prec : Z := 24.
Definition emax : Z := 128.

(** The float a 32-bit pattern stands for: sign bit 31, biased exponent
    bits 23..30, fraction bits 0..22.  All NaNs are one value. *)
Definition of_bits (x : Z) : spec_float :=
  let s := Z.testbit x 31 in
  let e := Z.land (Z.shiftr x 23) 0xFF in
  let m := Z.land x 0x7FFFFF in
  if e =? 0 then
    match m with
    | Zpos p => S754_finite s p (-149)
    | _ => S754_zero s
    end
  else if e =? 255 then
    if m =? 0 then S754_infinity s else S754_nan
  else
    match m + 0x800000 with
    | Zpos p => S754_finite s p (e - 150)
    | _ => S754_nan
    end.

Definition sign_bit (s : bool) : Z := if s then 0x80000000 else 0.

(** The quiet NaN every NaN result is written as. *)
Definition nan_bits : Z := 0x7FC00000.

Definition to_bits (f : spec_float) : Z :=
  match f with
  | S754_zero s => sign_bit s
  | S754_infinity s => Z.lor (sign_bit s) 0x7F800000
  | S754_nan => nan_bits
  | S754_finite s m e =>
      if 0x800000 <=? Zpos m
      then Z.lor (sign_bit s)
                 (Z.lor (Z.shiftl (e + 150) 23) (Zpos m - 0x800000))
      else Z.lor (sign_bit s) (Zpos m)
  end.

Definition lift2 (op : spec_float -> spec_float -> spec_float) (a b : Z) : Z :=
  to_bits (op (of_bits a) (of_bits b)).

Definition add : Z -> Z -> Z := lift2 (SFadd prec emax).
Definition sub : Z -> Z -> Z := lift2 (SFsub prec emax).
Definition mul : Z -> Z -> Z := lift2 (SFmul prec emax).
Definition div : Z -> Z -> Z := lift2 (SFdiv prec emax).
Definition sqrtf (a : Z) : Z := to_bits (SFsqrt prec emax (of_bits a)).

(** [(float) n] for an unsigned [n], rounded to nearest even. *)
Definition of_uint (n : Z) : Z :=
  to_bits (binary_normalize prec emax n 0 false).

#[export] Instance b32_ops : FloatOps Z := {|
  f_zero := 0;
  f_add := add;
  f_sub := sub;
  f_mul := mul;
  f_div := div;
  f_sqrt := sqrtf;
  f_of_uint := of_uint;
  f_or := Z.lor
|}.

Definition is_nan (a : Z) : bool :=
  match of_bits a with
  | S754_nan => true
  | _ => false
  end.

(** [a < 0] on floats: false for both zeros and for NaN. *)
Definition is_negative (a : Z) : bool :=
  SFltb (of_bits a) (S754_zero false).

(** The rational a finite pattern stands for. *)
Definition to_Q (a : Z) : option Q :=
  match of_bits a with
  | S754_zero _ => Some 0%Q
  | S754_finite s m e =>
      let n := if s then Zneg m else Zpos m in
      Some (inject_Z n * Qpower 2 e)%Q
  | _ => None
  end.

(** [v] is within relative tolerance [tol] of the reference [r], in the
    most permissive reading: the error is measured against the larger of
    the two magnitudes. *)
Definition within_rel_tol (tol : Q) (v r : Z) : Prop :=
  match to_Q v, to_Q r with
  | Some qv, Some qr =>
      (Qabs (qv - qr) <= tol * Qabs qv \/ Qabs (qv - qr) <= tol * Qabs qr)%Q
  | _, _ => v = r
  end.

End B32.

(** ** Exact integer arithmetic *)

Module ExactZ.

#[export] Instance z_ops : FloatOps Z := {|
  f_zero := 0;
  f_add := Z.add;
  f_sub := Z.sub;
  f_mul := Z.mul;
  f_div := Z.div;
  f_sqrt := Z.sqrt;
  f_of_uint := fun n => n;
  f_or := Z.lor
|}.

End ExactZ.

(** ** Vocabulary of the statements *)

Section Vocabulary.
Context {F : Type} {ops : FloatOps F}.

(** The running sums of the scalar loop, started from [a]. *)
Definition sum_from (a : F) (xs : list F) : F := fold_left f_add xs a.

Definition sumsq_from (a : F) (xs : list F) : F :=
  fold_left (fun r x => f_add r (f_mul x x)) xs a.

(** The unrolled sum of the lanes after a store. *)
Definition hsum128 (v : m128 F) : F := sum_buffer (_mm_store_ps v).
Definition hsum256 (v : m256 F) : F := sum_buffer (_mm256_store_ps v).

(** What DPPS leaves in the selected lanes. *)
Definition dot4 (a b : m128 F) : F :=
  f_add (f_add (f_mul (v0 a) (v0 b)) (f_mul (v1 a) (v1 b)))
        (f_add (f_mul (v2 a) (v2 b)) (f_mul (v3 a) (v3 b))).

(** The three ors of the loop body. *)
Definition or_combine (c1 c2 c3 c4 : m128 F) : m128 F :=
  _mm_or_ps (_mm_or_ps c1 c2) (_mm_or_ps c3 c4).

(** A loop body that moves its pointer by [step] floats and reads nothing
    outside the [step] floats it moves over. *)
Record strides {S : Type} (ptr : S -> nat) (step : nat)
       (body : buffer F -> S -> option S) : Prop := {
  stride_ok : forall buf s,
    (ptr s + step <= length buf)%nat ->
    exists s', body buf s = Some s' /\ ptr s' = (ptr s + step)%nat;
  stride_firstn : forall buf n s,
    (ptr s + step <= n)%nat -> body (firstn n buf) s = body buf s
}.

(** Every successful step of [body] moves the pointer over [step] floats
    and adds exactly those floats to the sum [sm] and their squares to the
    sum of squares [sq]. *)
Definition accumulates {S : Type} (ptr : S -> nat) (sm sq : S -> F)
           (step : nat) (body : buffer F -> S -> option S) : Prop :=
  forall buf s s',
    body buf s = Some s' ->
    ptr s' = (ptr s + step)%nat
    /\ sm s' = sum_from (sm s) (firstn step (skipn (ptr s) buf))
    /\ sq s' = sumsq_from (sq s) (firstn step (skipn (ptr s) buf)).

(** A vector loop over [num_points / d] groups of [d] floats. *)
Definition vector_phase {V : Type}
           (body : buffer F -> vector_state V -> option (vector_state V))
           (init : vector_state V) (d : Z)
           (buf : buffer F) (num_points : Z) : option (vector_state V) :=
  iterate (for_count 0 (uint_div num_points d)) (body buf) init.

(** The shape shared by the four vector kernels: the vector loop, the
    reduction of the accumulators, and the scalar loop over what is left. *)
Definition two_phase {V : Type}
           (body : buffer F -> vector_state V -> option (vector_state V))
           (reduce : vector_state V -> scalar_state F)
           (init : vector_state V) (d : Z)
           (buf : buffer F) (num_points : Z) : option (scalar_state F) :=
  vs <- vector_phase body init d buf num_points ;;
  iterate (tail_count (uint_div num_points d) d num_points)
          (scalar_body buf) (reduce vs).

(** Each kernel runs to completion on a buffer of at least [n] floats,
    leaves [aPtr] at [n], and does the same on the buffer cut to its first
    [n] floats. *)
Definition reads_prefix (run : buffer F -> Z -> option (scalar_state F))
           (buf : buffer F) (n : Z) : Prop :=
  exists s, run buf n = Some s
            /\ aPtr s = Z.to_nat n
            /\ run (firstn (Z.to_nat n) buf) n = Some s.

(** How a kernel with lane width [W] and unroll factor [U] splits [n]
    floats between its two loops: the vector loop stops after
    [(n / (U*W)) * (U*W)] floats, the scalar loop starts from the lane sums
    [hs] of the two accumulators, runs [n mod (U*W)] times over the floats
    that are left, and stops after [n] floats. *)
Definition splits_work {V : Type}
           (vector_loop : buffer F -> Z -> option (vector_state V))
           (reduce : vector_state V -> scalar_state F) (hs : V -> F)
           (run : buffer F -> Z -> option (scalar_state F))
           (W U : Z) (buf : buffer F) (n : Z) : Prop :=
  exists vs s,
    vector_loop buf n = Some vs
    /\ vPtr vs = Z.to_nat (n / (U * W) * (U * W))
    /\ reduce vs = mk_scalar (vPtr vs) (hs (squareAccumulator vs))
                             (hs (accumulator vs))
    /\ iterate (Z.to_nat (n mod (U * W))) (scalar_body buf) (reduce vs)
       = Some s
    /\ run buf n = Some s
    /\ aPtr s = (vPtr vs + Z.to_nat (n mod (U * W)))%nat
    /\ aPtr s = Z.to_nat n
    /\ newMean s
       = sum_from (hs (accumulator vs))
                  (firstn (Z.to_nat (n mod (U * W))) (skipn (vPtr vs) buf))
    /\ returnValue s
       = sumsq_from (hs (squareAccumulator vs))
                    (firstn (Z.to_nat (n mod (U * W))) (skipn (vPtr vs) buf)).

(** What the two loops add up: the lane sums after the vector loop are the
    sums over the floats it consumed, and the totals after the scalar loop
    are the sums over all [n] floats and all [n] squares. *)
Definition adds_every_sample_once {V : Type}
           (vector_loop : buffer F -> Z -> option (vector_state V))
           (hs : V -> F)
           (run : buffer F -> Z -> option (scalar_state F))
           (buf : buffer F) (n : Z) : Prop :=
  exists vs s,
    vector_loop buf n = Some vs
    /\ run buf n = Some s
    /\ hs (accumulator vs) = sum_from f_zero (firstn (vPtr vs) buf)
    /\ hs (squareAccumulator vs) = sumsq_from f_zero (firstn (vPtr vs) buf)
    /\ newMean s = sum_from f_zero (firstn (Z.to_nat n) buf)
    /\ returnValue s = sumsq_from f_zero (firstn (Z.to_nat n) buf).

(** A vector loop over registers of [W] lanes with unroll factor [U]: it
    runs [n / (U*W)] times, and each run succeeds when [U*W] floats are
    left and moves the pointer over exactly those. *)
Definition outer_loop_shape {V : Type} (store : V -> list F)
           (vector_loop : buffer F -> Z -> option (vector_state V))
           (body : buffer F -> vector_state V -> option (vector_state V))
           (init : vector_state V) (W U : Z) : Prop :=
  (forall v, length (store v) = Z.to_nat W)
  /\ (forall buf n,
         vector_loop buf n = iterate (Z.to_nat (n / (U * W))) (body buf) init)
  /\ (forall buf s,
         (vPtr s + Z.to_nat (U * W) <= length buf)%nat ->
         exists s', body buf s = Some s')
  /\ (forall buf s s',
         body buf s = Some s' -> vPtr s' = (vPtr s + Z.to_nat (U * W))%nat).

End Vocabulary.

(** ** Laws an arithmetic may or may not satisfy *)

(** Or-ing with the all-zero pattern changes nothing. *)
Class OrZeroLaws {F : Type} (ops : FloatOps F) : Prop := {
  or_zero_r : forall x : F, f_or x f_zero = x;
  or_zero_l : forall x : F, f_or f_zero x = x
}.

(** Addition does not depend on the order of the summands. *)
Class SumLaws {F : Type} (ops : FloatOps F) : Prop := {
  sum_or_zero :: OrZeroLaws ops;
  add_comm : forall x y : F, f_add x y = f_add y x;
  add_assoc : forall x y z : F, f_add x (f_add y z) = f_add (f_add x y) z;
  add_zero_l : forall x : F, f_add f_zero x = x
}.

(** Exact arithmetic: on top of [SumLaws], multiplication distributes,
    counting is additive, division undoes multiplication, and the square
    root of zero is zero. *)
Class ExactLaws {F : Type} (ops : FloatOps F) : Prop := {
  exact_sum :: SumLaws ops;
  mul_add_distr_r : forall a b x : F,
    f_mul (f_add a b) x = f_add (f_mul a x) (f_mul b x);
  mul_one_l : forall x : F, f_mul (f_of_uint 1) x = x;
  of_uint_succ : forall n : Z,
    0 < n -> f_of_uint (n + 1) = f_add (f_of_uint n) (f_of_uint 1);
  div_mul_cancel : forall (n : Z) (x : F),
    0 < n -> f_div (f_mul (f_of_uint n) x) (f_of_uint n) = x;
  sub_diag : forall x : F, f_sub x x = f_zero;
  sqrt_zero : f_sqrt f_zero = f_zero
}.

(** ** Concrete floats and buffers used in the statements *)

Module Consts.
(** 1.0f, 2.0f, 3.0f, 4.0f, 5.0f *)
Definition f1_0 : Z := 0x3F800000.
Definition f2_0 : Z := 0x40000000.
Definition f3_0 : Z := 0x40400000.
Definition f4_0 : Z := 0x40800000.
Definition f5_0 : Z := 0x40A00000.
(** 2.5f and 1.25f *)
Definition f2_5 : Z := 0x40200000.
Definition f1_25 : Z := 0x3FA00000.
(** 0.1f, the float nearest to 1/10, and 10.0f *)
Definition f0_1 : Z := 0x3DCCCCCD.
Definition f10_0 : Z := 0x41200000.
(** 16777216.0f, which is 2^24, and -16777216.0f *)
Definition f2p24 : Z := 0x4B800000.
Definition fm2p24 : Z := 0xCB800000.
End Consts.

(** [a] is a finite float whose value is the rational [q]. *)
Definition represents (a : Z) (q : Q) : Prop :=
  match B32.to_Q a with
  | Some x => (x == q)%Q
  | None => False
  end.

(** The summation order matters in binary32: [2^24 + 1] rounds back to
    [2^24], so the generic kernel loses the first 1.0 of these buffers,
    while the vector kernels add [2^24] and [-2^24] in one lane and the two
    1.0 in another and lose nothing. *)
Definition order_sensitive_8 : buffer Z :=
  [Consts.f2p24; Consts.f1_0; 0; 0; Consts.fm2p24; Consts.f1_0; 0; 0].

Definition order_sensitive_16 : buffer Z :=
  order_sensitive_8 ++ repeat 0 8.

Definition order_sensitive_32 : buffer Z :=
  [Consts.f2p24; Consts.f1_0; 0; 0; 0; 0; 0; 0;
   Consts.fm2p24; Consts.f1_0; 0; 0; 0; 0; 0; 0] ++ repeat 0 16.

(** The means of the two kernels differ by more than the tolerance. *)
Definition means_apart (tol : Q)
           (kern ref : buffer Z -> Z -> option (outputs Z))
           (buf : buffer Z) (n : Z) : Prop :=
  exists v r, kern buf n = Some v /\ ref buf n = Some r
              /\ ~ B32.within_rel_tol tol (mean v) (mean r).

(** On [n] copies of [c] the kernel returns mean [c] and stddev +0.0. *)
Definition constant_claim (kern : buffer Z -> Z -> option (outputs Z))
           (n : Z) (c : Z) : Prop :=
  kern (repeat c (Z.to_nat n)) n = Some (mk_outputs 0 c).

(** -1.0f, the largest finite float and its opposite. *)
Definition fm1_0 : Z := 0xBF800000.
Definition f_max : Z := 0x7F7FFFFF.
Definition fm_max : Z := 0xFF7FFFFF.

(** In buffer order the generic kernel adds the two largest floats first
    and its sum overflows to +infinity for good; the vector kernels add
    each of them to its opposite in one lane and their sum is 0. *)
Definition overflow_8 : buffer Z :=
  [f_max; f_max; 0; 0; fm_max; fm_max; 0; 0].

Definition overflow_16 : buffer Z := overflow_8 ++ repeat 0 8.

Definition overflow_32 : buffer Z :=
  [f_max; f_max; 0; 0; 0; 0; 0; 0;
   fm_max; fm_max; 0; 0; 0; 0; 0; 0] ++ repeat 0 16.

(** In buffer order both 1.0 are rounded away against [2^24] and the sum
    is -1.0; the vector kernels cancel [2^24] against [-2^24] and one 1.0
    against -1.0 in their lanes and the sum is 1.0. *)
Definition opposite_8 : buffer Z :=
  [Consts.f2p24; Consts.f1_0; Consts.f1_0; 0;
   Consts.fm2p24; fm1_0; 0; 0].

Definition opposite_16 : buffer Z := opposite_8 ++ repeat 0 8.

Definition opposite_32 : buffer Z :=
  [Consts.f2p24; Consts.f1_0; Consts.f1_0; 0; 0; 0; 0; 0;
   Consts.fm2p24; fm1_0; 0; 0; 0; 0; 0; 0] ++ repeat 0 16.

(** ** Vocabulary of the further properties *)

Section LaneVocabulary.
Context {F : Type} {ops : FloatOps F}.

(** The floats of the buffer at [offset], [offset + stride],
    [offset + 2 * stride], ...: [count] of them, in this order. *)
Definition strided (buf : buffer F) (offset stride count : nat) : list F :=
  map (fun i => nth (offset + i * stride) buf f_zero) (seq 0 count).

(** The [b]-th group of four consecutive floats of the buffer. *)
Definition block4 (buf : buffer F) (b : nat) : m128 F :=
  mk128 (nth (4 * b) buf f_zero) (nth (4 * b + 1) buf f_zero)
        (nth (4 * b + 2) buf f_zero) (nth (4 * b + 3) buf f_zero).

(** The dot products with themselves of the groups of four at [offset],
    [offset + stride], ...: [count] of them, in this order. *)
Definition strided_dots (buf : buffer F) (offset stride count : nat)
  : list F :=
  map (fun i => dot4 (block4 buf (offset + i * stride))
                     (block4 buf (offset + i * stride)))
      (seq 0 count).

End LaneVocabulary.

(** A pattern that stands for an infinity or a NaN. *)
Definition is_nonfinite (a : Z) : bool :=
  match B32.of_bits a with
  | S754_infinity _ | S754_nan => true
  | _ => false
  end.

(** One bit in place of each float, set when the float is "poisoned": the
    sum, difference or product of two values is poisoned when one of them
    is, a quotient when its numerator is, a square root when its argument
    is; constants are clean. *)
Module Taint.

#[export] Instance taint_ops : FloatOps bool := {|
  f_zero := false;
  f_add := orb;
  f_sub := orb;
  f_mul := orb;
  f_div := fun b _ => b;
  f_sqrt := fun b => b;
  f_of_uint := fun _ => false;
  f_or := orb
|}.

(** The pattern [x] satisfies [P] whenever its bit [b] is set. *)
Definition taints (P : Z -> bool) (x : Z) (b : bool) : Prop :=
  b = true -> P x = true.

End Taint.

Section RelationVocabulary.
Context {F1 F2 : Type}.
Variable R : F1 -> F2 -> Prop.

(** Two runs of a kernel, one per arithmetic, whose values are related by
    [R] component by component. *)
Definition rel128 (a : m128 F1) (b : m128 F2) : Prop :=
  R (v0 a) (v0 b) /\ R (v1 a) (v1 b) /\ R (v2 a) (v2 b) /\ R (v3 a) (v3 b).

Definition rel256 (a : m256 F1) (b : m256 F2) : Prop :=
  rel128 (lo128 a) (lo128 b) /\ rel128 (hi128 a) (hi128 b).

Definition rel_scalar (s1 : scalar_state F1) (s2 : scalar_state F2) : Prop :=
  aPtr s1 = aPtr s2
  /\ R (returnValue s1) (returnValue s2)
  /\ R (newMean s1) (newMean s2).

Definition rel_vector {V1 V2 : Type} (RV : V1 -> V2 -> Prop)
           (s1 : vector_state V1) (s2 : vector_state V2) : Prop :=
  vPtr s1 = vPtr s2
  /\ RV (accumulator s1) (accumulator s2)
  /\ RV (squareAccumulator s1) (squareAccumulator s2).

Definition rel_outputs (o1 : outputs F1) (o2 : outputs F2) : Prop :=
  R (stddev o1) (stddev o2) /\ R (mean o1) (mean o2).

Definition rel_option {A B : Type} (RA : A -> B -> Prop)
           (o1 : option A) (o2 : option B) : Prop :=
  match o1, o2 with
  | Some a, Some b => RA a b
  | None, None => True
  | _, _ => False
  end.

(** Every operation of the interface maps related arguments to related
    results. *)
Record ops_related (ops1 : FloatOps F1) (ops2 : FloatOps F2) : Prop := {
  rel_zero : R f_zero f_zero;
  rel_add : forall x1 x2 y1 y2,
    R x1 x2 -> R y1 y2 -> R (f_add x1 y1) (f_add x2 y2);
  rel_sub : forall x1 x2 y1 y2,
    R x1 x2 -> R y1 y2 -> R (f_sub x1 y1) (f_sub x2 y2);
  rel_mul : forall x1 x2 y1 y2,
    R x1 x2 -> R y1 y2 -> R (f_mul x1 y1) (f_mul x2 y2);
  rel_div : forall x1 x2 y1 y2,
    R x1 x2 -> R y1 y2 -> R (f_div x1 y1) (f_div x2 y2);
  rel_sqrt : forall x1 x2, R x1 x2 -> R (f_sqrt x1) (f_sqrt x2);
  rel_of_uint : forall n, R (f_of_uint n) (f_of_uint n);
  rel_or : forall x1 x2 y1 y2,
    R x1 x2 -> R y1 y2 -> R (f_or x1 y1) (f_or x2 y2)
}.

End RelationVocabulary.

(** The kernel returns, and both of its outputs satisfy [P]. *)
Definition both_outputs (P : Z -> bool)
           (kern : buffer Z -> Z -> option (outputs Z))
           (buf : buffer Z) (n : Z) : Prop :=
  exists o, kern buf n = Some o
            /\ P (stddev o) = true /\ P (mean o) = true.

(** * Proofs *)

(** ** Loops over a buffer *)

Section Loops.
Context {F : Type} {ops : FloatOps F}.

Section Strides.
Context {S : Type} (ptr : S -> nat) (step : nat)
        (body : buffer F -> S -> option S).
Hypothesis Hs : strides ptr step body.

Lemma iterate_stride_ok (buf : buffer F) (k : nat) (s : S) :
  (ptr s + k * step <= length buf)%nat ->
  exists s', iterate k (body buf) s = Some s'
             /\ ptr s' = (ptr s + k * step)%nat.
Proof.
  revert s; induction k as [|k IH]; intros s Hlen; simpl in *.
  - exists s; split; [reflexivity | lia].
  - destruct (stride_ok _ _ _ Hs buf s) as (s1 & Hb & Hp); [lia|].
    rewrite Hb; simpl.
    destruct (IH s1) as (s2 & Hi & Hp2); [lia|].
    exists s2; split; [exact Hi | lia].
Qed.

Lemma iterate_stride_firstn (buf : buffer F) (n k : nat) (s : S) :
  (ptr s + k * step <= n)%nat -> (n <= length buf)%nat ->
  iterate k (body (firstn n buf)) s = iterate k (body buf) s.
Proof.
  revert s; induction k as [|k IH]; intros s Hn Hlen; simpl in *;
    [reflexivity|].
  rewrite (stride_firstn _ _ _ Hs) by lia.
  destruct (stride_ok _ _ _ Hs buf s) as (s1 & Hb & Hp); [lia|].
  rewrite Hb; simpl. apply IH; lia.
Qed.
End Strides.

Lemma skipn_firstn_swap {A : Type} (n p : nat) (l : list A) :
  skipn p (firstn n l) = firstn (n - p) (skipn p l).
Proof.
  revert n l; induction p as [|p IH]; intros n l; simpl.
  - now rewrite Nat.sub_0_r.
  - destruct n as [|n]; simpl; [now destruct l; rewrite ?firstn_nil|].
    destruct l as [|x l]; simpl; [now rewrite firstn_nil | apply IH].
Qed.

Lemma skipn_long {A : Type} (p k : nat) (l : list A) :
  (p + k <= length l)%nat -> (k <= length (skipn p l))%nat.
Proof. rewrite length_skipn; lia. Qed.

Lemma load_ps_ok (buf : buffer F) (p : nat) :
  (p + 4 <= length buf)%nat ->
  exists a b c d r,
    skipn p buf = a :: b :: c :: d :: r
    /\ _mm_load_ps buf p = Some (mk128 a b c d).
Proof.
  intros H. apply (skipn_long p 4) in H. unfold _mm_load_ps.
  destruct (skipn p buf) as [|a [|b [|c [|d r]]]]; simpl in H; try lia.
  now exists a, b, c, d, r.
Qed.

Lemma load_ps_firstn (buf : buffer F) (n p : nat) :
  (p + 4 <= n)%nat -> _mm_load_ps (firstn n buf) p = _mm_load_ps buf p.
Proof.
  intros H. unfold _mm_load_ps. rewrite skipn_firstn_swap.
  destruct (n - p)%nat as [|[|[|[|j]]]] eqn:E; try lia.
  destruct (skipn p buf) as [|a [|b [|c [|d r]]]]; reflexivity.
Qed.

Lemma loadu256_firstn (buf : buffer F) (n p : nat) :
  (p + 8 <= n)%nat ->
  _mm256_loadu_ps (firstn n buf) p = _mm256_loadu_ps buf p.
Proof.
  intros H. unfold _mm256_loadu_ps.
  now rewrite !load_ps_firstn by lia.
Qed.

Lemma loadu256_ok (buf : buffer F) (p : nat) :
  (p + 8 <= length buf)%nat ->
  exists a b c d e f g h r,
    skipn p buf = a :: b :: c :: d :: e :: f :: g :: h :: r
    /\ _mm256_loadu_ps buf p = Some (mk256 (mk128 a b c d) (mk128 e f g h)).
Proof.
  intros H. unfold _mm256_loadu_ps, _mm_load_ps.
  assert (E : skipn (p + 4) buf = skipn 4 (skipn p buf))
    by (now rewrite Nat.add_comm, skipn_skipn).
  rewrite E. apply (skipn_long p 8) in H.
  destruct (skipn p buf) as [|a [|b [|c [|d [|e [|f [|g [|h r]]]]]]]];
    simpl in H; try lia.
  now exists a, b, c, d, e, f, g, h, r.
Qed.

Lemma scalar_strides : strides aPtr 1 scalar_body.
Proof.
  split.
  - intros buf s H. unfold scalar_body, deref.
    destruct (nth_error buf (aPtr s)) as [x|] eqn:E.
    + simpl. eexists; split; [reflexivity | simpl; lia].
    + apply nth_error_None in E; lia.
  - intros buf n s H. unfold scalar_body, deref.
    now rewrite nth_error_firstn, (proj2 (Nat.ltb_lt _ _)) by lia.
Qed.

Lemma a_sse_strides : strides vPtr 4 a_sse_body.
Proof.
  split.
  - intros buf s H. unfold a_sse_body.
    destruct (load_ps_ok buf (vPtr s) H) as (a & b & c & d & r & _ & ->).
    simpl. eexists; split; [reflexivity | reflexivity].
  - intros buf n s H. unfold a_sse_body.
    now rewrite load_ps_firstn by lia.
Qed.

Lemma a_sse4_1_strides : strides vPtr 16 a_sse4_1_body.
Proof.
  split.
  - intros buf s H. unfold a_sse4_1_body.
    destruct (load_ps_ok buf (vPtr s)) as (? & ? & ? & ? & ? & _ & ->);
      [lia|]; simpl.
    destruct (load_ps_ok buf (vPtr s + 4)) as (? & ? & ? & ? & ? & _ & ->);
      [lia|]; simpl.
    destruct (load_ps_ok buf (vPtr s + 4 + 4))
      as (? & ? & ? & ? & ? & _ & ->); [lia|]; simpl.
    destruct (load_ps_ok buf (vPtr s + 4 + 4 + 4))
      as (? & ? & ? & ? & ? & _ & ->); [lia|]; simpl.
    eexists; split; [reflexivity | simpl; lia].
  - intros buf n s H. unfold a_sse4_1_body.
    now rewrite !load_ps_firstn by lia.
Qed.

Lemma avx_strides : strides vPtr 32 (avx_body _mm256_loadu_ps).
Proof.
  split.
  - intros buf s H. unfold avx_body.
    destruct (loadu256_ok buf (vPtr s))
      as (? & ? & ? & ? & ? & ? & ? & ? & ? & _ & ->); [lia|]; simpl.
    destruct (loadu256_ok buf (vPtr s + 8))
      as (? & ? & ? & ? & ? & ? & ? & ? & ? & _ & ->); [lia|]; simpl.
    destruct (loadu256_ok buf (vPtr s + 8 + 8))
      as (? & ? & ? & ? & ? & ? & ? & ? & ? & _ & ->); [lia|]; simpl.
    destruct (loadu256_ok buf (vPtr s + 8 + 8 + 8))
      as (? & ? & ? & ? & ? & ? & ? & ? & ? & _ & ->); [lia|]; simpl.
    eexists; split; [reflexivity | simpl; lia].
  - intros buf n s H. unfold avx_body.
    now rewrite !loadu256_firstn by lia.
Qed.

End Loops.

(** ** Unsigned arithmetic of the loop bounds *)

Lemma wrap32_small (z : Z) : 0 <= z < UINT_MODULUS -> wrap32 z = z.
Proof. intros H. unfold wrap32. now apply Z.mod_small. Qed.

Lemma uint_mul_div (n d : Z) :
  0 < d -> 0 <= n < UINT_MODULUS -> uint_mul (uint_div n d) d = n / d * d.
Proof.
  intros Hd Hn. unfold uint_mul, uint_div. apply wrap32_small.
  pose proof (Z.mul_div_le n d Hd). pose proof (Z.div_pos n d).
  nia.
Qed.

Lemma tail_count_mod (n d : Z) :
  0 < d -> 0 <= n < UINT_MODULUS ->
  tail_count (uint_div n d) d n = Z.to_nat (n mod d).
Proof.
  intros Hd Hn. unfold tail_count, for_count. rewrite uint_mul_div by lia.
  f_equal. rewrite (Z.div_mod n d) at 1 by lia. lia.
Qed.

Lemma groups_plus_tail (n d : Z) :
  0 < d -> 0 <= n ->
  (Z.to_nat (n / d) * Z.to_nat d + Z.to_nat (n mod d))%nat = Z.to_nat n.
Proof.
  intros Hd Hn.
  pose proof (Z.div_pos n d Hn Hd). pose proof (Z.mod_pos_bound n d Hd).
  rewrite <- Z2Nat.inj_mul, <- Z2Nat.inj_add by nia.
  f_equal. rewrite (Z.div_mod n d) at 3 by lia. lia.
Qed.

(** ** Lane sums and dot products *)

Section Sums.
Context {F : Type} {ops : FloatOps F}.

Lemma dp_ps_F1 (a b : m128 F) :
  _mm_dp_ps a b 0xF1 = mk128 (dot4 a b) f_zero f_zero f_zero.
Proof. reflexivity. Qed.

Lemma dp_ps_F2 (a b : m128 F) :
  _mm_dp_ps a b 0xF2 = mk128 f_zero (dot4 a b) f_zero f_zero.
Proof. reflexivity. Qed.

Lemma dp_ps_F4 (a b : m128 F) :
  _mm_dp_ps a b 0xF4 = mk128 f_zero f_zero (dot4 a b) f_zero.
Proof. reflexivity. Qed.

Lemma dp_ps_F8 (a b : m128 F) :
  _mm_dp_ps a b 0xF8 = mk128 f_zero f_zero f_zero (dot4 a b).
Proof. reflexivity. Qed.

Lemma or_combine_lanes `{!OrZeroLaws ops} (a1 a2 a3 a4 : m128 F) :
  or_combine (_mm_dp_ps a1 a1 0xF1) (_mm_dp_ps a2 a2 0xF2)
             (_mm_dp_ps a3 a3 0xF4) (_mm_dp_ps a4 a4 0xF8)
  = mk128 (dot4 a1 a1) (dot4 a2 a2) (dot4 a3 a3) (dot4 a4 a4).
Proof.
  rewrite dp_ps_F1, dp_ps_F2, dp_ps_F4, dp_ps_F8.
  unfold or_combine, _mm_or_ps, map2_128; simpl.
  now rewrite !or_zero_r, !or_zero_l.
Qed.

Section WithSumLaws.
Context `{!SumLaws ops}.

#[global] Instance f_add_assoc : Associative eq f_add.
Proof. intros x y z. apply add_assoc. Qed.

#[global] Instance f_add_comm : Commutative eq f_add.
Proof. intros x y. apply add_comm. Qed.

#[global] Instance f_add_unit : Unit eq f_add f_zero.
Proof.
  split; intros x; [apply add_zero_l | rewrite add_comm; apply add_zero_l].
Qed.

Lemma hsum128_add (a b : m128 F) :
  hsum128 (_mm_add_ps a b) = f_add (hsum128 a) (hsum128 b).
Proof.
  destruct a, b; unfold hsum128; simpl. aac_reflexivity.
Qed.

Lemma hsum256_split (v : m256 F) :
  hsum256 v = f_add (hsum128 (lo128 v)) (hsum128 (hi128 v)).
Proof.
  destruct v as [[] []]; unfold hsum256, hsum128; simpl. aac_reflexivity.
Qed.

Lemma hsum256_add (a b : m256 F) :
  hsum256 (_mm256_add_ps a b) = f_add (hsum256 a) (hsum256 b).
Proof.
  rewrite !hsum256_split. unfold _mm256_add_ps; simpl.
  rewrite !hsum128_add. aac_reflexivity.
Qed.

Lemma sum_from_4 (h a b c d : F) :
  sum_from h [a; b; c; d] = f_add h (hsum128 (mk128 a b c d)).
Proof. unfold hsum128; simpl. aac_reflexivity. Qed.

Lemma sumsq_from_4 (h a b c d : F) :
  sumsq_from h [a; b; c; d]
  = f_add h (dot4 (mk128 a b c d) (mk128 a b c d)).
Proof. unfold dot4; simpl. aac_reflexivity. Qed.

Lemma sumsq_from_4_mul (h a b c d : F) :
  sumsq_from h [a; b; c; d]
  = f_add h (hsum128 (_mm_mul_ps (mk128 a b c d) (mk128 a b c d))).
Proof. unfold hsum128; simpl. aac_reflexivity. Qed.

End WithSumLaws.
End Sums.

(** ** Loops that accumulate a sum and a sum of squares *)

Section Accumulation.
Context {F : Type} {ops : FloatOps F}.

Lemma firstn_plus {A : Type} (n m : nat) (l : list A) :
  firstn (n + m) l = firstn n l ++ firstn m (skipn n l).
Proof.
  revert l; induction n as [|n IH]; intros l; simpl; [reflexivity|].
  destruct l as [|x l]; simpl; [now rewrite firstn_nil | now rewrite IH].
Qed.

Lemma skipn_plus {A : Type} (n m : nat) (l : list A) :
  skipn (n + m) l = skipn m (skipn n l).
Proof.
  revert l; induction n as [|n IH]; intros l; simpl; [reflexivity|].
  destruct l as [|x l]; simpl; [now rewrite skipn_nil | apply IH].
Qed.

Lemma iterate_accumulates {S : Type} (ptr : S -> nat) (sm sq : S -> F)
      (step : nat) (body : buffer F -> S -> option S) :
  accumulates ptr sm sq step body ->
  forall buf k s s',
    iterate k (body buf) s = Some s' ->
    ptr s' = (ptr s + k * step)%nat
    /\ sm s' = sum_from (sm s) (firstn (k * step) (skipn (ptr s) buf))
    /\ sq s' = sumsq_from (sq s) (firstn (k * step) (skipn (ptr s) buf)).
Proof.
  intros Hacc buf k; induction k as [|k IH]; intros s s' Hit; simpl in Hit.
  - injection Hit as <-. simpl. repeat split; lia.
  - destruct (body buf s) as [s1|] eqn:Hb; simpl in Hit; [|discriminate].
    destruct (Hacc _ _ _ Hb) as (Hp & Hm & Hq).
    destruct (IH _ _ Hit) as (Hp' & Hm' & Hq').
    rewrite Hp', Hm', Hq', Hp, Hm, Hq.
    change (Datatypes.S k * step)%nat with (step + k * step)%nat.
    rewrite firstn_plus, <- skipn_plus.
    unfold sum_from, sumsq_from. rewrite !fold_left_app.
    repeat split; lia.
Qed.

Lemma scalar_accumulates :
  accumulates (@aPtr F) (@newMean F) (@returnValue F) 1 scalar_body.
Proof.
  intros buf s s' H. unfold scalar_body, deref in H.
  destruct (nth_error buf (aPtr s)) as [x|] eqn:E; simpl in H;
    [|discriminate].
  injection H as <-. cbn [aPtr newMean returnValue].
  assert (Hs : firstn 1 (skipn (aPtr s) buf) = [x]).
  { revert E. generalize (aPtr s) as p. intros p; revert buf.
    induction p as [|p IH]; intros [|y l] E; simpl in *; try discriminate.
    - now injection E as ->.
    - now apply IH. }
  rewrite Hs. simpl. repeat split; lia.
Qed.

Lemma load_ps_inv (buf : buffer F) (p : nat) (v : m128 F) :
  _mm_load_ps buf p = Some v ->
  exists r, skipn p buf = v0 v :: v1 v :: v2 v :: v3 v :: r
            /\ skipn (p + 4) buf = r.
Proof.
  unfold _mm_load_ps. intros H. rewrite skipn_plus.
  destruct (skipn p buf) as [|a [|b [|c [|d r]]]]; try discriminate.
  injection H as <-. now exists r.
Qed.

Lemma loadu256_inv (buf : buffer F) (p : nat) (v : m256 F) :
  _mm256_loadu_ps buf p = Some v ->
  exists r, skipn p buf =
            v0 (lo128 v) :: v1 (lo128 v) :: v2 (lo128 v) :: v3 (lo128 v)
            :: v0 (hi128 v) :: v1 (hi128 v) :: v2 (hi128 v) :: v3 (hi128 v)
            :: r
            /\ skipn (p + 8) buf = r.
Proof.
  unfold _mm256_loadu_ps. intros H.
  destruct (_mm_load_ps buf p) as [l|] eqn:El; simpl in H; [|discriminate].
  destruct (_mm_load_ps buf (p + 4)) as [h|] eqn:Eh; simpl in H;
    [|discriminate].
  injection H as <-. simpl.
  destruct (load_ps_inv _ _ _ El) as (r1 & E1 & E1').
  destruct (load_ps_inv _ _ _ Eh) as (r2 & E2 & E2').
  exists r2. rewrite E1, <- E1', E2. split; [reflexivity|].
  rewrite <- E2'. f_equal. lia.
Qed.

Section WithSumLaws.
Context `{!SumLaws ops}.

Lemma hsum128_zero : hsum128 (@_mm_setzero_ps F ops) = f_zero.
Proof. unfold hsum128; simpl. now rewrite !add_zero_l. Qed.

Lemma hsum256_zero : hsum256 (@_mm256_setzero_ps F ops) = f_zero.
Proof. unfold hsum256; simpl. now rewrite !add_zero_l. Qed.

Lemma a_sse_accumulates :
  accumulates vPtr (fun s => hsum128 (accumulator s))
              (fun s => hsum128 (squareAccumulator s)) 4 a_sse_body.
Proof.
  intros buf s s' H. unfold a_sse_body in H.
  destruct (_mm_load_ps buf (vPtr s)) as [v|] eqn:E; simpl in H;
    [|discriminate].
  injection H as <-. cbn [vPtr accumulator squareAccumulator].
  destruct (load_ps_inv _ _ _ E) as (r & -> & _).
  cbn [firstn]. rewrite sum_from_4, sumsq_from_4_mul, !hsum128_add.
  destruct v; simpl. repeat split.
Qed.

Lemma a_sse4_1_accumulates :
  accumulates vPtr (fun s => hsum128 (accumulator s))
              (fun s => hsum128 (squareAccumulator s)) 16 a_sse4_1_body.
Proof.
  intros buf s s' H. unfold a_sse4_1_body in H.
  destruct (_mm_load_ps buf (vPtr s)) as [a1|] eqn:E1; simpl in H;
    [|discriminate].
  destruct (_mm_load_ps buf (vPtr s + 4)) as [a2|] eqn:E2; simpl in H;
    [|discriminate].
  destruct (_mm_load_ps buf (vPtr s + 4 + 4)) as [a3|] eqn:E3;
    simpl in H; [|discriminate].
  destruct (_mm_load_ps buf (vPtr s + 4 + 4 + 4)) as [a4|] eqn:E4;
    simpl in H; [|discriminate].
  injection H as <-.
  destruct (load_ps_inv _ _ _ E1) as (r1 & R1 & R1').
  destruct (load_ps_inv _ _ _ E2) as (r2 & R2 & R2').
  destruct (load_ps_inv _ _ _ E3) as (r3 & R3 & R3').
  destruct (load_ps_inv _ _ _ E4) as (r4 & R4 & _).
  rewrite R1, <- R1', R2, <- R2', R3, <- R3', R4.
  cbn [vPtr accumulator squareAccumulator firstn].
  change (_mm_or_ps (_mm_or_ps ?c1 ?c2) (_mm_or_ps ?c3 ?c4))
    with (or_combine c1 c2 c3 c4).
  rewrite or_combine_lanes, !hsum128_add.
  split; [lia|]. split.
  - match goal with
    | |- _ = sum_from ?h [?x1; ?x2; ?x3; ?x4; ?x5; ?x6; ?x7; ?x8;
                          ?x9; ?x10; ?x11; ?x12; ?x13; ?x14; ?x15; ?x16] =>
        change (sum_from h [x1; x2; x3; x4; x5; x6; x7; x8;
                            x9; x10; x11; x12; x13; x14; x15; x16])
          with (sum_from (sum_from (sum_from (sum_from h
                  [x1; x2; x3; x4]) [x5; x6; x7; x8])
                  [x9; x10; x11; x12]) [x13; x14; x15; x16])
    end.
    rewrite !sum_from_4. destruct a1, a2, a3, a4; reflexivity.
  - match goal with
    | |- _ = sumsq_from ?h [?x1; ?x2; ?x3; ?x4; ?x5; ?x6; ?x7; ?x8;
                            ?x9; ?x10; ?x11; ?x12; ?x13; ?x14; ?x15; ?x16] =>
        change (sumsq_from h [x1; x2; x3; x4; x5; x6; x7; x8;
                              x9; x10; x11; x12; x13; x14; x15; x16])
          with (sumsq_from (sumsq_from (sumsq_from (sumsq_from h
                  [x1; x2; x3; x4]) [x5; x6; x7; x8])
                  [x9; x10; x11; x12]) [x13; x14; x15; x16])
    end.
    rewrite !sumsq_from_4. destruct a1, a2, a3, a4.
    unfold hsum128; simpl. aac_reflexivity.
Qed.

Lemma or_combine256_lanes (a1 a2 a3 a4 : m256 F) :
  _mm256_or_ps
    (_mm256_or_ps (_mm256_dp_ps a1 a1 0xF1) (_mm256_dp_ps a2 a2 0xF2))
    (_mm256_or_ps (_mm256_dp_ps a3 a3 0xF4) (_mm256_dp_ps a4 a4 0xF8))
  = mk256 (mk128 (dot4 (lo128 a1) (lo128 a1)) (dot4 (lo128 a2) (lo128 a2))
                 (dot4 (lo128 a3) (lo128 a3)) (dot4 (lo128 a4) (lo128 a4)))
          (mk128 (dot4 (hi128 a1) (hi128 a1)) (dot4 (hi128 a2) (hi128 a2))
                 (dot4 (hi128 a3) (hi128 a3)) (dot4 (hi128 a4) (hi128 a4))).
Proof.
  unfold _mm256_or_ps, _mm256_dp_ps; cbn [lo128 hi128].
  change (_mm_or_ps (_mm_or_ps ?c1 ?c2) (_mm_or_ps ?c3 ?c4))
    with (or_combine c1 c2 c3 c4).
  now rewrite !or_combine_lanes.
Qed.

Lemma avx_accumulates :
  accumulates vPtr (fun s => hsum256 (accumulator s))
              (fun s => hsum256 (squareAccumulator s)) 32
              (avx_body _mm256_loadu_ps).
Proof.
  intros buf s s' H. unfold avx_body in H.
  destruct (_mm256_loadu_ps buf (vPtr s)) as [a1|] eqn:E1; simpl in H;
    [|discriminate].
  destruct (_mm256_loadu_ps buf (vPtr s + 8)) as [a2|] eqn:E2;
    simpl in H; [|discriminate].
  destruct (_mm256_loadu_ps buf (vPtr s + 8 + 8)) as [a3|] eqn:E3;
    simpl in H; [|discriminate].
  destruct (_mm256_loadu_ps buf (vPtr s + 8 + 8 + 8)) as [a4|] eqn:E4;
    simpl in H; [|discriminate].
  injection H as <-.
  destruct (loadu256_inv _ _ _ E1) as (r1 & R1 & R1').
  destruct (loadu256_inv _ _ _ E2) as (r2 & R2 & R2').
  destruct (loadu256_inv _ _ _ E3) as (r3 & R3 & R3').
  destruct (loadu256_inv _ _ _ E4) as (r4 & R4 & _).
  rewrite R1, <- R1', R2, <- R2', R3, <- R3', R4.
  cbn [vPtr accumulator squareAccumulator firstn].
  rewrite or_combine256_lanes, !hsum256_add.
  split; [lia|]. split.
  - rewrite !hsum256_split.
    destruct a1 as [[] []], a2 as [[] []], a3 as [[] []], a4 as [[] []].
    unfold hsum128; simpl. aac_reflexivity.
  - rewrite !hsum256_split.
    destruct a1 as [[] []], a2 as [[] []], a3 as [[] []], a4 as [[] []].
    unfold hsum128, dot4; simpl. aac_reflexivity.
Qed.

End WithSumLaws.
End Accumulation.

(** ** The shape shared by the four vector kernels *)

Section TwoPhase.
Context {F : Type} {ops : FloatOps F} {V : Type}.
Variables (body : buffer F -> vector_state V -> option (vector_state V))
          (reduce : vector_state V -> scalar_state F)
          (init : vector_state V) (d : Z).

Lemma scalar_loop_spec (buf : buffer F) (k : nat) (s s' : scalar_state F) :
  iterate k (scalar_body buf) s = Some s' ->
  s' = mk_scalar (aPtr s + k)
         (sumsq_from (returnValue s) (firstn k (skipn (aPtr s) buf)))
         (sum_from (newMean s) (firstn k (skipn (aPtr s) buf))).
Proof.
  intros H.
  destruct (iterate_accumulates _ _ _ _ _ scalar_accumulates _ _ _ _ H)
    as (Hp & Hm & Hq).
  rewrite Nat.mul_1_r in *. destruct s'; simpl in *. now subst.
Qed.

Lemma generic_run_spec (buf : buffer F) (n : Z) :
  (Z.to_nat n <= length buf)%nat ->
  generic_run buf n
  = Some (mk_scalar (Z.to_nat n)
            (sumsq_from f_zero (firstn (Z.to_nat n) buf))
            (sum_from f_zero (firstn (Z.to_nat n) buf))).
Proof.
  intros Hlen. unfold generic_run, for_count. rewrite Z.sub_0_r.
  destruct (iterate_stride_ok _ _ _ scalar_strides buf (Z.to_nat n)
              (mk_scalar 0 f_zero f_zero)) as (g & Hg & _);
    [simpl; lia|].
  rewrite Hg. f_equal. now apply scalar_loop_spec in Hg.
Qed.

Lemma two_phase_small (buf : buffer F) (n : Z) :
  0 <= n < d ->
  vector_phase body init d buf n = Some init
  /\ two_phase body reduce init d buf n = iterate (Z.to_nat n) (scalar_body buf) (reduce init).
Proof.
  intros Hn. unfold two_phase, vector_phase, tail_count, for_count,
    uint_div, uint_mul.
  rewrite Z.div_small by lia. simpl.
  split; [reflexivity|]. now rewrite Z.sub_0_r.
Qed.

Hypothesis Hd : 0 < d.
Hypothesis Hbody : strides vPtr (Z.to_nat d) body.
Hypothesis Hinit : vPtr init = O.
Hypothesis Hreduce : forall vs, aPtr (reduce vs) = vPtr vs.

Lemma two_phase_ok (buf : buffer F) (n : Z) :
  0 <= n < UINT_MODULUS -> (Z.to_nat n <= length buf)%nat ->
  exists vs s,
    vector_phase body init d buf n = Some vs
    /\ vPtr vs = (Z.to_nat (n / d) * Z.to_nat d)%nat
    /\ iterate (Z.to_nat (n mod d)) (scalar_body buf) (reduce vs) = Some s
    /\ two_phase body reduce init d buf n = Some s
    /\ aPtr s = Z.to_nat n.
Proof.
  intros Hn Hlen.
  pose proof (groups_plus_tail n d Hd (proj1 Hn)) as Hsplit.
  unfold two_phase, vector_phase, for_count, uint_div.
  rewrite Z.sub_0_r.
  destruct (iterate_stride_ok _ _ _ Hbody buf (Z.to_nat (n / d)) init)
    as (vs & Hvs & Hp); [lia|].
  rewrite Hinit in Hp; simpl in Hp.
  destruct (iterate_stride_ok _ _ _ scalar_strides buf
              (Z.to_nat (n mod d)) (reduce vs)) as (s & Hs & Hps);
    [rewrite Hreduce; lia|].
  rewrite Hreduce in Hps.
  exists vs, s. rewrite Hvs; simpl.
  change (n / d) with (uint_div n d). rewrite tail_count_mod by lia.
  repeat split; try assumption. lia.
Qed.

Lemma two_phase_firstn (buf : buffer F) (n : Z) :
  0 <= n < UINT_MODULUS -> (Z.to_nat n <= length buf)%nat ->
  two_phase body reduce init d (firstn (Z.to_nat n) buf) n = two_phase body reduce init d buf n.
Proof.
  intros Hn Hlen.
  pose proof (groups_plus_tail n d Hd (proj1 Hn)) as Hsplit.
  destruct (two_phase_ok buf n Hn Hlen) as (vs & s & Hvs & Hp & Hs & _ & _).
  unfold two_phase, vector_phase in *.
  rewrite (iterate_stride_firstn _ _ _ Hbody)
    by (unfold for_count, uint_div; rewrite ?Hinit, ?Z.sub_0_r; lia).
  rewrite Hvs; simpl. rewrite tail_count_mod by lia.
  apply (iterate_stride_firstn _ _ _ scalar_strides);
    [rewrite Hreduce; lia | lia].
Qed.

(** Under order-independent addition the two phases add up what the
    scalar loop adds up. *)
Section Exact.
Context `{!SumLaws ops}.
Variable hs : V -> F.
Hypothesis Hred : forall vs,
  reduce vs = mk_scalar (vPtr vs) (hs (squareAccumulator vs))
                        (hs (accumulator vs)).
Hypothesis Hacc :
  accumulates vPtr (fun s => hs (accumulator s))
              (fun s => hs (squareAccumulator s)) (Z.to_nat d) body.
Hypothesis Hzero : hs (accumulator init) = f_zero.
Hypothesis Hzerosq : hs (squareAccumulator init) = f_zero.

Lemma vector_phase_sums (buf : buffer F) (n : Z) (vs : vector_state V) :
  vector_phase body init d buf n = Some vs ->
  hs (accumulator vs)
  = sum_from f_zero (firstn (Z.to_nat (n / d) * Z.to_nat d) buf)
  /\ hs (squareAccumulator vs)
     = sumsq_from f_zero (firstn (Z.to_nat (n / d) * Z.to_nat d) buf).
Proof.
  unfold vector_phase, for_count, uint_div. rewrite Z.sub_0_r.
  intros H.
  destruct (iterate_accumulates _ _ _ _ _ Hacc _ _ _ _ H)
    as (_ & Hm & Hq).
  rewrite Hinit, Hzero in Hm. rewrite Hinit, Hzerosq in Hq.
  now split.
Qed.

Lemma two_phase_exact (buf : buffer F) (n : Z) :
  0 <= n < UINT_MODULUS -> (Z.to_nat n <= length buf)%nat ->
  two_phase body reduce init d buf n = generic_run buf n.
Proof.
  intros Hn Hlen.
  pose proof (groups_plus_tail n d Hd (proj1 Hn)) as Hsplit.
  destruct (two_phase_ok buf n Hn Hlen)
    as (vs & s & Hvs & Hp & Hs & Hrun & _).
  rewrite Hrun, generic_run_spec by assumption. f_equal.
  apply scalar_loop_spec in Hs. rewrite Hs, Hred; simpl.
  destruct (vector_phase_sums _ _ _ Hvs) as (-> & ->).
  rewrite Hp, <- Hsplit, firstn_plus.
  unfold sum_from, sumsq_from. now rewrite !fold_left_app.
Qed.
End Exact.

End TwoPhase.

(** ** The four vector kernels are instances of the two-phase shape *)

Section Instances.
Context {F : Type} {ops : FloatOps F}.

Lemma a_sse_two_phase :
  @a_sse_run F ops = two_phase a_sse_body reduce128 vector_init128 4.
Proof. reflexivity. Qed.

Lemma a_sse4_1_two_phase :
  @a_sse4_1_run F ops
  = two_phase a_sse4_1_body reduce128 vector_init128 16.
Proof. reflexivity. Qed.

Lemma a_avx_two_phase :
  @a_avx_run F ops
  = two_phase (avx_body _mm256_loadu_ps) reduce256 vector_init256 32.
Proof. reflexivity. Qed.

Lemma u_avx_two_phase :
  @u_avx_run F ops
  = two_phase (avx_body _mm256_loadu_ps) reduce256 vector_init256 32.
Proof. reflexivity. Qed.

Lemma kernel_ext (run1 run2 : buffer F -> Z -> option (scalar_state F))
      (buf1 buf2 : buffer F) (n : Z) :
  run1 buf1 n = run2 buf2 n -> kernel run1 buf1 n = kernel run2 buf2 n.
Proof. intros H. unfold kernel. now rewrite H. Qed.

(** With no full group the vector loop does not run, and where
    [0 + 0 = 0] the reduction hands the scalar loop the state the generic
    kernel starts from. *)
Section Small.
Hypothesis add_zero_zero : f_add f_zero f_zero = f_zero.

Lemma reduce128_init :
  reduce128 vector_init128 = mk_scalar O f_zero f_zero.
Proof.
  unfold reduce128, vector_init128; simpl. now rewrite !add_zero_zero.
Qed.

Lemma reduce256_init :
  reduce256 vector_init256 = mk_scalar O f_zero f_zero.
Proof.
  unfold reduce256, vector_init256; simpl. now rewrite !add_zero_zero.
Qed.

Lemma two_phase_small_generic {V : Type}
      (body : buffer F -> vector_state V -> option (vector_state V))
      (reduce : vector_state V -> scalar_state F)
      (init : vector_state V) (d : Z) (buf : buffer F) (n : Z) :
  reduce init = mk_scalar O f_zero f_zero ->
  0 <= n < d ->
  two_phase body reduce init d buf n = generic_run buf n.
Proof.
  intros Hr Hn.
  destruct (two_phase_small body reduce init d buf n Hn) as (_ & ->).
  rewrite Hr. unfold generic_run, for_count. now rewrite Z.sub_0_r.
Qed.
End Small.

Lemma generic_reads_prefix (buf : buffer F) (n : Z) :
  (Z.to_nat n <= length buf)%nat -> reads_prefix generic_run buf n.
Proof.
  intros Hlen. eexists. split; [now apply generic_run_spec|].
  split; [reflexivity|].
  rewrite generic_run_spec
    by (rewrite length_firstn; lia).
  now rewrite firstn_firstn, Nat.min_id.
Qed.

Lemma two_phase_reads_prefix {V : Type}
      (body : buffer F -> vector_state V -> option (vector_state V))
      (reduce : vector_state V -> scalar_state F)
      (init : vector_state V) (d : Z) :
  0 < d -> strides vPtr (Z.to_nat d) body -> vPtr init = O ->
  (forall vs, aPtr (reduce vs) = vPtr vs) ->
  forall buf n,
    0 <= n < UINT_MODULUS -> (Z.to_nat n <= length buf)%nat ->
    reads_prefix (two_phase body reduce init d) buf n.
Proof.
  intros Hd Hb Hi Hr buf n Hn Hlen.
  destruct (two_phase_ok body reduce init d Hd Hb Hi Hr buf n Hn Hlen)
    as (vs & s & _ & _ & _ & Hrun & Hp).
  exists s. repeat split; try assumption.
  now rewrite two_phase_firstn.
Qed.

End Instances.

(** ** The two arithmetics and the laws they satisfy *)

#[export] Instance z_or_zero : OrZeroLaws ExactZ.z_ops.
Proof. split; intros x; simpl; [apply Z.lor_0_r | apply Z.lor_0_l]. Defined.

#[export] Instance z_sum_laws : SumLaws ExactZ.z_ops.
Proof.
  split; [exact z_or_zero | | | ]; simpl; intros; lia.
Defined.

#[export] Instance z_exact_laws : ExactLaws ExactZ.z_ops.
Proof.
  split; [exact z_sum_laws | | | | | | ]; simpl; intros; try lia.
  - now destruct x.
  - rewrite Z.mul_comm. apply Z.div_mul. lia.
Defined.

(** The or of two 32-bit patterns is the or of the integers, whatever
    floats they stand for. *)
#[export] Instance b32_or_zero : OrZeroLaws B32.b32_ops.
Proof. split; intros x; simpl; [apply Z.lor_0_r | apply Z.lor_0_l]. Defined.

Lemma b32_add_zero_zero : B32.add 0 0 = 0.
Proof. reflexivity. Qed.

Lemma b32_sqrt_negative (a : Z) :
  B32.is_negative a = true -> B32.sqrtf a = B32.nan_bits.
Proof.
  unfold B32.is_negative, B32.sqrtf.
  destruct (B32.of_bits a) as [s|[|]| |[|] m e]; simpl;
    try discriminate; try reflexivity.
Qed.

(** The patterns of [Consts] stand for the floats their names say. *)
Example constants_check :
  represents Consts.f10_0 10
  /\ B32.div Consts.f1_0 Consts.f10_0 = Consts.f0_1
  /\ represents Consts.f0_1 (13421773 # 134217728)
  /\ represents Consts.f2p24 16777216
  /\ represents Consts.fm2p24 (-16777216)
  /\ B32.of_uint 16777216 = Consts.f2p24
  /\ B32.add Consts.f2p24 Consts.f1_0 = Consts.f2p24.
Proof. repeat split; vm_compute; reflexivity. Qed.

(** * Claims *)

(** C2: with [num_points = 0] every kernel writes 0 to both outputs.  The
    statement holds for every arithmetic and every buffer, the empty one
    included: no load is made, and the result does not depend on what
    division does (in binary32, [0 / 0] is NaN, not 0). *)
Theorem zero_points_gives_zero :
  forall (F : Type) (ops : FloatOps F) (buf : buffer F),
    volk_32f_stddev_and_mean_32f_x2_generic buf 0
      = Some (mk_outputs f_zero f_zero)
    /\ volk_32f_stddev_and_mean_32f_x2_a_sse buf 0
      = Some (mk_outputs f_zero f_zero)
    /\ volk_32f_stddev_and_mean_32f_x2_a_sse4_1 buf 0
      = Some (mk_outputs f_zero f_zero)
    /\ volk_32f_stddev_and_mean_32f_x2_a_avx buf 0
      = Some (mk_outputs f_zero f_zero)
    /\ volk_32f_stddev_and_mean_32f_x2_u_avx buf 0
      = Some (mk_outputs f_zero f_zero)
    /\ B32.is_nan (B32.div 0 (B32.of_uint 0)) = true.
Proof.
  intros F ops buf. repeat split.
Qed.

(** C7: in binary32 the generic kernel maps [1.0, 2.0, 3.0, 4.0] to
    mean 2.5 and stddev [sqrtf(1.25)], which is 1.1180340 to the last
    printed digit, and maps [5.0] to mean 5.0 and stddev +0.0. *)
Theorem generic_concrete_scenarios :
  let out4 :=
    volk_32f_stddev_and_mean_32f_x2_generic (ops := B32.b32_ops)
      [Consts.f1_0; Consts.f2_0; Consts.f3_0; Consts.f4_0] 4 in
  let out1 :=
    volk_32f_stddev_and_mean_32f_x2_generic (ops := B32.b32_ops)
      [Consts.f5_0] 1 in
  (represents Consts.f1_0 1 /\ represents Consts.f2_0 2
   /\ represents Consts.f3_0 3 /\ represents Consts.f4_0 4
   /\ represents Consts.f5_0 5 /\ represents Consts.f2_5 (5 # 2)
   /\ represents Consts.f1_25 (5 # 4))
  /\ out4 = Some (mk_outputs (B32.sqrtf Consts.f1_25) Consts.f2_5)
  /\ (exists q, B32.to_Q (B32.sqrtf Consts.f1_25) = Some q
                /\ (Qabs (q - (11180340 # 10000000)) <= 5 # 100000000)%Q)
  /\ out1 = Some (mk_outputs 0 Consts.f5_0).
Proof.
  cbv zeta. split; [|split; [|split]].
  - repeat split; vm_compute; reflexivity.
  - vm_compute. reflexivity.
  - eexists. split; [vm_compute; reflexivity|].
    vm_compute. intros H; discriminate H.
  - vm_compute. reflexivity.
Qed.

Section Binary32.
#[local] Existing Instance B32.b32_ops.

(** In binary32 the three ors of the SSE4.1 and AVX loop bodies put the
    four dot products side by side, bit for bit. *)
Example b32_dot_products_side_by_side :
  forall a1 a2 a3 a4 : m128 Z,
    or_combine
      (_mm_dp_ps a1 a1 0xF1) (_mm_dp_ps a2 a2 0xF2)
      (_mm_dp_ps a3 a3 0xF4) (_mm_dp_ps a4 a4 0xF8)
    = mk128 (dot4 a1 a1) (dot4 a2 a2) (dot4 a3 a3) (dot4 a4 a4).
Proof. intros a1 a2 a3 a4. apply or_combine_lanes. Qed.

(** C10: in binary32, below one full outer block (16 floats for SSE4.1,
    32 for AVX) the vector loop does not run, the reduction of the zero
    accumulators is +0.0, and the kernel returns what the generic kernel
    returns, pattern for pattern. *)
Theorem below_one_block_is_generic :
  forall (buf : buffer Z) (n : Z),
    0 < n ->
    (n < 16 ->
     a_sse4_1_vector_loop buf n = Some vector_init128
     /\ reduce128 vector_init128 = mk_scalar O 0 0
     /\ a_sse4_1_run buf n
        = iterate (Z.to_nat n) (scalar_body buf) (mk_scalar O 0 0)
     /\ volk_32f_stddev_and_mean_32f_x2_a_sse4_1 buf n
        = volk_32f_stddev_and_mean_32f_x2_generic buf n)
    /\ (n < 32 ->
        avx_vector_loop _mm256_load_ps buf n
          = Some vector_init256
        /\ avx_vector_loop _mm256_loadu_ps buf n
          = Some vector_init256
        /\ reduce256 vector_init256 = mk_scalar O 0 0
        /\ a_avx_run buf n
           = iterate (Z.to_nat n) (scalar_body buf) (mk_scalar O 0 0)
        /\ volk_32f_stddev_and_mean_32f_x2_a_avx buf n
           = volk_32f_stddev_and_mean_32f_x2_generic buf n
        /\ volk_32f_stddev_and_mean_32f_x2_u_avx buf n
           = volk_32f_stddev_and_mean_32f_x2_generic buf n).
Proof.
  intros buf n Hpos. split; intros Hlt.
  - destruct (two_phase_small a_sse4_1_body reduce128 vector_init128 16
                buf n) as (Hv & Hr); [lia|].
    split; [exact Hv|].
    split; [exact (reduce128_init b32_add_zero_zero)|].
    split; [exact Hr|].
    apply kernel_ext. rewrite a_sse4_1_two_phase.
    apply two_phase_small_generic;
      [exact (reduce128_init b32_add_zero_zero) | lia].
  - destruct (two_phase_small (avx_body _mm256_loadu_ps) reduce256
                vector_init256 32 buf n) as (Hv & Hr); [lia|].
    split; [exact Hv|]. split; [exact Hv|].
    split; [exact (reduce256_init b32_add_zero_zero)|].
    split; [exact Hr|].
    split; apply kernel_ext;
      [rewrite a_avx_two_phase | rewrite u_avx_two_phase];
      (apply two_phase_small_generic;
       [exact (reduce256_init b32_add_zero_zero) | lia]).
Qed.

Lemma below_one_block_is_generic_witness :
  volk_32f_stddev_and_mean_32f_x2_a_sse4_1
    [Consts.f1_0; Consts.f2_0; Consts.f3_0] 3
  = volk_32f_stddev_and_mean_32f_x2_generic
      [Consts.f1_0; Consts.f2_0; Consts.f3_0] 3
  /\ volk_32f_stddev_and_mean_32f_x2_a_avx
       [Consts.f1_0; Consts.f2_0; Consts.f3_0] 3
     = volk_32f_stddev_and_mean_32f_x2_generic
         [Consts.f1_0; Consts.f2_0; Consts.f3_0] 3.
Proof.
  destruct (below_one_block_is_generic
              [Consts.f1_0; Consts.f2_0; Consts.f3_0] 3) as (H16 & H32);
    [lia|].
  split.
  - apply H16. lia.
  - apply H32. lia.
Defined.

(** C3: for [num_points > 0] the generic kernel adds the floats and their
    squares in buffer order, divides both sums by [num_points], subtracts
    the square of the mean and takes the square root of the difference as
    it is; when that difference is negative the stddev written is NaN. *)
Theorem generic_formula_no_clamp :
  forall (buf : buffer Z) (n : Z),
    0 < n -> (Z.to_nat n <= length buf)%nat ->
    let xs := firstn (Z.to_nat n) buf in
    let sum := fold_left B32.add xs 0 in
    let sumSq := fold_left (fun r x => B32.add r (B32.mul x x)) xs 0 in
    let mean := B32.div sum (B32.of_uint n) in
    let variance :=
      B32.sub (B32.div sumSq (B32.of_uint n)) (B32.mul mean mean) in
    volk_32f_stddev_and_mean_32f_x2_generic buf n
      = Some (mk_outputs (B32.sqrtf variance) mean)
    /\ (B32.is_negative variance = true ->
        volk_32f_stddev_and_mean_32f_x2_generic buf n
          = Some (mk_outputs B32.nan_bits mean)
        /\ B32.is_nan B32.nan_bits = true).
Proof.
  intros buf n Hn Hlen xs sum sumSq mean variance.
  assert (E : volk_32f_stddev_and_mean_32f_x2_generic
                buf n
              = Some (mk_outputs (B32.sqrtf variance) mean)).
  { unfold volk_32f_stddev_and_mean_32f_x2_generic, kernel.
    rewrite (proj2 (Z.ltb_lt 0 n) Hn), generic_run_spec by assumption.
    reflexivity. }
  split; [exact E|].
  intros Hneg. rewrite E, (b32_sqrt_negative _ Hneg).
  split; reflexivity.
Qed.

Lemma generic_formula_no_clamp_witness :
  volk_32f_stddev_and_mean_32f_x2_generic
    (repeat Consts.f0_1 7) 7
  = Some (mk_outputs B32.nan_bits 0x3DCCCCCE).
Proof.
  destruct (generic_formula_no_clamp (repeat Consts.f0_1 7) 7) as (_ & H);
    [lia | simpl; lia |].
  destruct H as (H & _); [vm_compute; reflexivity|].
  exact H.
Defined.

(** C1, as stated, fails: on these buffers the mean of each vector kernel
    is twice the mean of the generic kernel (0.25 against 0.125 for SSE),
    far outside a relative tolerance of 1e-5. *)
Lemma tolerance_counterexample :
  means_apart (1 # 100000) volk_32f_stddev_and_mean_32f_x2_a_sse
              volk_32f_stddev_and_mean_32f_x2_generic order_sensitive_8 8
  /\ means_apart (1 # 100000) volk_32f_stddev_and_mean_32f_x2_a_sse4_1
                 volk_32f_stddev_and_mean_32f_x2_generic order_sensitive_16 16
  /\ means_apart (1 # 100000) volk_32f_stddev_and_mean_32f_x2_a_avx
                 volk_32f_stddev_and_mean_32f_x2_generic order_sensitive_32 32
  /\ means_apart (1 # 100000) volk_32f_stddev_and_mean_32f_x2_u_avx
                 volk_32f_stddev_and_mean_32f_x2_generic order_sensitive_32 32.
Proof.
  repeat split;
    (eexists; eexists;
     split; [vm_compute; reflexivity|];
     split; [vm_compute; reflexivity|];
     intros [H|H]; vm_compute in H; now apply H).
Qed.

Example order_sensitive_8_means :
  option_map mean (volk_32f_stddev_and_mean_32f_x2_generic order_sensitive_8 8)
    = Some 0x3E000000
  /\ option_map mean (volk_32f_stddev_and_mean_32f_x2_a_sse order_sensitive_8 8)
    = Some 0x3E800000
  /\ represents 0x3E000000 (1 # 8) /\ represents 0x3E800000 (1 # 4).
Proof. repeat split; vm_compute; reflexivity. Qed.

(** C6, as stated, fails in binary32: for seven copies of 0.1f the generic
    kernel returns a mean one unit in the last place above 0.1f and a
    stddev that is NaN. *)
Lemma constant_buffer_counterexample :
  volk_32f_stddev_and_mean_32f_x2_generic (repeat Consts.f0_1 7) 7
    = Some (mk_outputs B32.nan_bits (Consts.f0_1 + 1))
  /\ ~ constant_claim volk_32f_stddev_and_mean_32f_x2_generic 7 Consts.f0_1.
Proof.
  split; [vm_compute; reflexivity|].
  unfold constant_claim. vm_compute. intros H; discriminate H.
Qed.

End Binary32.

(** ** Claims that hold for every arithmetic *)

Section AnyArithmetic.
Context {F : Type} {ops : FloatOps F}.

Lemma a_sse_run_exact `{!SumLaws ops} (buf : buffer F) (n : Z) :
  0 <= n < UINT_MODULUS -> (Z.to_nat n <= length buf)%nat ->
  a_sse_run buf n = generic_run buf n.
Proof.
  rewrite a_sse_two_phase.
  apply (two_phase_exact a_sse_body reduce128 vector_init128 4
           ltac:(lia) a_sse_strides eq_refl
           (fun _ => eq_refl) hsum128 (fun _ => eq_refl) a_sse_accumulates
           hsum128_zero hsum128_zero).
Qed.

Lemma a_sse4_1_run_exact `{!SumLaws ops} (buf : buffer F) (n : Z) :
  0 <= n < UINT_MODULUS -> (Z.to_nat n <= length buf)%nat ->
  a_sse4_1_run buf n = generic_run buf n.
Proof.
  rewrite a_sse4_1_two_phase.
  apply (two_phase_exact a_sse4_1_body reduce128 vector_init128 16
           ltac:(lia) a_sse4_1_strides eq_refl
           (fun _ => eq_refl) hsum128 (fun _ => eq_refl)
           a_sse4_1_accumulates hsum128_zero hsum128_zero).
Qed.

Lemma avx_run_exact `{!SumLaws ops} (buf : buffer F) (n : Z) :
  0 <= n < UINT_MODULUS -> (Z.to_nat n <= length buf)%nat ->
  avx_run _mm256_loadu_ps buf n = generic_run buf n.
Proof.
  change (avx_run _mm256_loadu_ps) with (@u_avx_run F ops).
  rewrite u_avx_two_phase.
  apply (two_phase_exact (avx_body _mm256_loadu_ps) reduce256
           vector_init256 32 ltac:(lia) avx_strides eq_refl
           (fun _ => eq_refl) hsum256 (fun _ => eq_refl)
           avx_accumulates hsum256_zero hsum256_zero).
Qed.

(** Wherever addition is associative and commutative with unit 0, and
    or-ing with 0 is the identity, each vector kernel returns exactly what
    the generic kernel returns. *)
Lemma vector_kernels_equal_under_sum_laws :
  forall (L : SumLaws ops) (buf : buffer F) (n : Z),
    0 < n < UINT_MODULUS -> (Z.to_nat n <= length buf)%nat ->
    volk_32f_stddev_and_mean_32f_x2_a_sse buf n
      = volk_32f_stddev_and_mean_32f_x2_generic buf n
    /\ volk_32f_stddev_and_mean_32f_x2_a_sse4_1 buf n
      = volk_32f_stddev_and_mean_32f_x2_generic buf n
    /\ volk_32f_stddev_and_mean_32f_x2_a_avx buf n
      = volk_32f_stddev_and_mean_32f_x2_generic buf n
    /\ volk_32f_stddev_and_mean_32f_x2_u_avx buf n
      = volk_32f_stddev_and_mean_32f_x2_generic buf n.
Proof.
  intros L buf n Hn Hlen.
  repeat split; apply kernel_ext.
  - apply a_sse_run_exact; [lia | assumption].
  - apply a_sse4_1_run_exact; [lia | assumption].
  - apply (avx_run_exact buf n); [lia | assumption].
  - apply (avx_run_exact buf n); [lia | assumption].
Qed.

Lemma sum_repeat `{!ExactLaws ops} (c : F) (k : nat) :
  sum_from f_zero (repeat c (S k)) = f_mul (f_of_uint (Z.of_nat (S k))) c.
Proof.
  induction k as [|k IH].
  - simpl. now rewrite add_zero_l, mul_one_l.
  - change (repeat c (S (S k))) with (c :: repeat c (S k)).
    rewrite repeat_cons. unfold sum_from in *. rewrite fold_left_app, IH.
    simpl fold_left.
    replace (Z.of_nat (S (S k))) with (Z.of_nat (S k) + 1) by lia.
    rewrite of_uint_succ, mul_add_distr_r, mul_one_l by lia.
    reflexivity.
Qed.

Lemma sumsq_repeat `{!ExactLaws ops} (c : F) (k : nat) :
  sumsq_from f_zero (repeat c (S k))
  = f_mul (f_of_uint (Z.of_nat (S k))) (f_mul c c).
Proof.
  induction k as [|k IH].
  - simpl. now rewrite add_zero_l, mul_one_l.
  - change (repeat c (S (S k))) with (c :: repeat c (S k)).
    rewrite repeat_cons. unfold sumsq_from in *. rewrite fold_left_app, IH.
    simpl fold_left.
    replace (Z.of_nat (S (S k))) with (Z.of_nat (S k) + 1) by lia.
    rewrite of_uint_succ, mul_add_distr_r, mul_one_l by lia.
    reflexivity.
Qed.

Lemma generic_constant `{!ExactLaws ops} (c : F) (n : Z) :
  0 < n ->
  volk_32f_stddev_and_mean_32f_x2_generic (repeat c (Z.to_nat n)) n
  = Some (mk_outputs f_zero c).
Proof.
  intros Hn. unfold volk_32f_stddev_and_mean_32f_x2_generic, kernel.
  rewrite (proj2 (Z.ltb_lt 0 n) Hn), generic_run_spec
    by (rewrite repeat_length; lia).
  rewrite firstn_all2 by (rewrite repeat_length; lia).
  destruct (Z.to_nat n) as [|k] eqn:E; [lia|].
  rewrite sum_repeat, sumsq_repeat. simpl obind. unfold finalize; simpl.
  replace (Z.pos (Pos.of_succ_nat k)) with n by lia.
  now rewrite !div_mul_cancel, sub_diag, sqrt_zero by lia.
Qed.

(** C6, amended: in exact arithmetic every kernel maps [n] copies of [c]
    to mean [c] and stddev 0. *)
Theorem constant_buffer_exact :
  forall (L : ExactLaws ops) (c : F) (n : Z),
    0 < n < UINT_MODULUS ->
    let buf := repeat c (Z.to_nat n) in
    volk_32f_stddev_and_mean_32f_x2_generic buf n
      = Some (mk_outputs f_zero c)
    /\ volk_32f_stddev_and_mean_32f_x2_a_sse buf n
      = Some (mk_outputs f_zero c)
    /\ volk_32f_stddev_and_mean_32f_x2_a_sse4_1 buf n
      = Some (mk_outputs f_zero c)
    /\ volk_32f_stddev_and_mean_32f_x2_a_avx buf n
      = Some (mk_outputs f_zero c)
    /\ volk_32f_stddev_and_mean_32f_x2_u_avx buf n
      = Some (mk_outputs f_zero c).
Proof.
  intros L c n Hn buf.
  assert (Hlen : (Z.to_nat n <= length buf)%nat)
    by (unfold buf; rewrite repeat_length; lia).
  assert (G := generic_constant c n (proj1 Hn)). fold buf in G.
  split; [exact G|].
  repeat split; rewrite <- G; apply kernel_ext.
  - apply a_sse_run_exact; [lia | assumption].
  - apply a_sse4_1_run_exact; [lia | assumption].
  - apply (avx_run_exact buf n); [lia | assumption].
  - apply (avx_run_exact buf n); [lia | assumption].
Qed.

End AnyArithmetic.

Import ExactZ.

Lemma means_apart_non_finite (tol : Q)
      (kern ref : buffer Z -> Z -> option (outputs Z))
      (buf : buffer Z) (n : Z) (v r : outputs Z) :
  kern buf n = Some v -> ref buf n = Some r ->
  B32.to_Q (mean r) = None -> mean v <> mean r ->
  means_apart tol kern ref buf n.
Proof.
  intros Hv Hr Hq Hne. exists v, r. split; [exact Hv|]. split; [exact Hr|].
  unfold B32.within_rel_tol. rewrite Hq.
  now destruct (B32.to_Q (mean v)).
Qed.

Lemma means_apart_opposite (tol : Q)
      (kern ref : buffer Z -> Z -> option (outputs Z))
      (buf : buffer Z) (n : Z) (v r : outputs Z) (qv qr : Q) :
  kern buf n = Some v -> ref buf n = Some r ->
  B32.to_Q (mean v) = Some qv -> B32.to_Q (mean r) = Some qr ->
  (0 < qv)%Q -> (qr == - qv)%Q -> (tol < 2)%Q ->
  means_apart tol kern ref buf n.
Proof.
  intros Hv Hr Hqv Hqr Hpos Hopp Htol.
  exists v, r. split; [exact Hv|]. split; [exact Hr|].
  unfold B32.within_rel_tol. rewrite Hqv, Hqr.
  assert (E1 : (Qabs (qv - qr) == 2 * qv)%Q).
  { rewrite Hopp. rewrite Qabs_pos; lra. }
  assert (E2 : (Qabs qv == qv)%Q) by (apply Qabs_pos; lra).
  assert (E3 : (Qabs qr == qv)%Q).
  { rewrite Hopp, Qabs_opp. exact E2. }
  rewrite E1, E2, E3. intros [H|H]; nra.
Qed.

(** C1, amended: the vector kernels differ from the generic kernel in the
    order of the additions and in nothing else: wherever addition is
    associative and commutative with unit 0, and or-ing with 0 is the
    identity, each of them returns exactly what the generic kernel returns.
    In binary32 the order matters without bound: for each vector kernel
    there is a buffer on which the generic mean is +infinity and the vector
    mean is 0, outside every relative tolerance, and a buffer on which the
    two means are finite and opposite (-0.125 and 0.125 for SSE), outside
    every relative tolerance below 2. *)
Theorem vector_kernels_equal_generic_up_to_order :
  (forall (F : Type) (ops : FloatOps F) (L : SumLaws ops)
          (buf : buffer F) (n : Z),
      0 < n < UINT_MODULUS -> (Z.to_nat n <= length buf)%nat ->
      volk_32f_stddev_and_mean_32f_x2_a_sse buf n
        = volk_32f_stddev_and_mean_32f_x2_generic buf n
      /\ volk_32f_stddev_and_mean_32f_x2_a_sse4_1 buf n
        = volk_32f_stddev_and_mean_32f_x2_generic buf n
      /\ volk_32f_stddev_and_mean_32f_x2_a_avx buf n
        = volk_32f_stddev_and_mean_32f_x2_generic buf n
      /\ volk_32f_stddev_and_mean_32f_x2_u_avx buf n
        = volk_32f_stddev_and_mean_32f_x2_generic buf n)
  /\ (forall tol : Q,
        means_apart tol
          (volk_32f_stddev_and_mean_32f_x2_a_sse (ops := B32.b32_ops))
          (volk_32f_stddev_and_mean_32f_x2_generic (ops := B32.b32_ops))
          overflow_8 8
        /\ means_apart tol
             (volk_32f_stddev_and_mean_32f_x2_a_sse4_1 (ops := B32.b32_ops))
             (volk_32f_stddev_and_mean_32f_x2_generic (ops := B32.b32_ops))
             overflow_16 16
        /\ means_apart tol
             (volk_32f_stddev_and_mean_32f_x2_a_avx (ops := B32.b32_ops))
             (volk_32f_stddev_and_mean_32f_x2_generic (ops := B32.b32_ops))
             overflow_32 32
        /\ means_apart tol
             (volk_32f_stddev_and_mean_32f_x2_u_avx (ops := B32.b32_ops))
             (volk_32f_stddev_and_mean_32f_x2_generic (ops := B32.b32_ops))
             overflow_32 32)
  /\ (forall tol : Q,
        (tol < 2)%Q ->
        means_apart tol
          (volk_32f_stddev_and_mean_32f_x2_a_sse (ops := B32.b32_ops))
          (volk_32f_stddev_and_mean_32f_x2_generic (ops := B32.b32_ops))
          opposite_8 8
        /\ means_apart tol
             (volk_32f_stddev_and_mean_32f_x2_a_sse4_1 (ops := B32.b32_ops))
             (volk_32f_stddev_and_mean_32f_x2_generic (ops := B32.b32_ops))
             opposite_16 16
        /\ means_apart tol
             (volk_32f_stddev_and_mean_32f_x2_a_avx (ops := B32.b32_ops))
             (volk_32f_stddev_and_mean_32f_x2_generic (ops := B32.b32_ops))
             opposite_32 32
        /\ means_apart tol
             (volk_32f_stddev_and_mean_32f_x2_u_avx (ops := B32.b32_ops))
             (volk_32f_stddev_and_mean_32f_x2_generic (ops := B32.b32_ops))
             opposite_32 32).
Proof.
  split; [|split].
  - intros F ops L buf n. apply vector_kernels_equal_under_sum_laws, L.
  - intros tol.
    repeat split;
      (eapply means_apart_non_finite;
       [vm_compute; reflexivity | vm_compute; reflexivity
        | vm_compute; reflexivity | vm_compute; intros H; discriminate H]).
  - intros tol Htol.
    repeat split;
      (eapply means_apart_opposite;
       [vm_compute; reflexivity | vm_compute; reflexivity
        | vm_compute; reflexivity | vm_compute; reflexivity
        | reflexivity | vm_compute; reflexivity | exact Htol]).
Qed.

(** The outputs on the two SSE buffers, as patterns and as numbers. *)
Example order_matters_without_bound :
  volk_32f_stddev_and_mean_32f_x2_generic (ops := B32.b32_ops) overflow_8 8
    = Some (mk_outputs B32.nan_bits 0x7F800000)
  /\ volk_32f_stddev_and_mean_32f_x2_a_sse (ops := B32.b32_ops) overflow_8 8
     = Some (mk_outputs 0x7F800000 0)
  /\ B32.of_bits 0x7F800000 = S754_infinity false
  /\ option_map mean
       (volk_32f_stddev_and_mean_32f_x2_generic (ops := B32.b32_ops)
          opposite_8 8) = Some 0xBE000000
  /\ option_map mean
       (volk_32f_stddev_and_mean_32f_x2_a_sse (ops := B32.b32_ops)
          opposite_8 8) = Some 0x3E000000
  /\ represents 0xBE000000 (- (1 # 8)) /\ represents 0x3E000000 (1 # 8)
  /\ represents fm1_0 (- 1)
  /\ B32.add f_max f_max = 0x7F800000
  /\ B32.sub 0 f_max = fm_max.
Proof. repeat split; vm_compute; reflexivity. Qed.

Lemma vector_kernels_equal_generic_up_to_order_witness :
  (volk_32f_stddev_and_mean_32f_x2_a_sse [1; 2; 3; 4; 5] 5
     = volk_32f_stddev_and_mean_32f_x2_generic [1; 2; 3; 4; 5] 5
   /\ volk_32f_stddev_and_mean_32f_x2_generic [1; 2; 3; 4; 5] 5
     = Some (mk_outputs 1 3))
  /\ means_apart (1 # 100000)
       (volk_32f_stddev_and_mean_32f_x2_a_avx (ops := B32.b32_ops))
       (volk_32f_stddev_and_mean_32f_x2_generic (ops := B32.b32_ops))
       opposite_32 32
  /\ means_apart (1000000 # 1)
       (volk_32f_stddev_and_mean_32f_x2_a_sse4_1 (ops := B32.b32_ops))
       (volk_32f_stddev_and_mean_32f_x2_generic (ops := B32.b32_ops))
       overflow_16 16.
Proof.
  destruct vector_kernels_equal_generic_up_to_order as (HE & HO & HP).
  split; [split; [|reflexivity] | split].
  - apply (HE Z z_ops z_sum_laws [1; 2; 3; 4; 5] 5);
      [unfold UINT_MODULUS; lia | simpl; lia].
  - destruct (HP (1 # 100000)) as (_ & _ & H & _); [reflexivity | exact H].
  - destruct (HO (1000000 # 1)) as (_ & H & _). exact H.
Defined.

Lemma constant_buffer_exact_witness :
  volk_32f_stddev_and_mean_32f_x2_a_sse4_1 (repeat 7 20) 20
  = Some (mk_outputs 0 7).
Proof.
  apply (constant_buffer_exact z_exact_laws 7 20).
  unfold UINT_MODULUS; lia.
Defined.

(** ** The structure of the vector kernels *)

Section Structure.
Context {F : Type} {ops : FloatOps F}.

Lemma two_phase_splits {V : Type}
      (body : buffer F -> vector_state V -> option (vector_state V))
      (reduce : vector_state V -> scalar_state F)
      (init : vector_state V) (d W U : Z) (hs : V -> F) :
  d = U * W -> 0 < d ->
  strides vPtr (Z.to_nat d) body -> vPtr init = O ->
  (forall vs, reduce vs = mk_scalar (vPtr vs) (hs (squareAccumulator vs))
                                    (hs (accumulator vs))) ->
  forall buf n,
    0 <= n < UINT_MODULUS -> (Z.to_nat n <= length buf)%nat ->
    splits_work (vector_phase body init d) reduce hs
                (two_phase body reduce init d) W U buf n.
Proof.
  intros Hd Hpos Hb Hi Hred buf n Hn Hlen. subst d.
  assert (Hr : forall vs, aPtr (reduce vs) = vPtr vs)
    by (intros vs; now rewrite Hred).
  pose proof (groups_plus_tail n (U * W) Hpos (proj1 Hn)) as Hsplit.
  destruct (two_phase_ok body reduce init (U * W) Hpos Hb Hi Hr buf n Hn Hlen)
    as (vs & s & Hvs & Hp & Hs & Hrun & Hps).
  assert (Hp' : vPtr vs = Z.to_nat (n / (U * W) * (U * W))).
  { rewrite Hp, <- Z2Nat.inj_mul; [reflexivity | | lia].
    apply Z.div_pos; lia. }
  pose proof (scalar_loop_spec _ _ _ _ Hs) as Es.
  rewrite Hred in Es; cbn [aPtr returnValue newMean] in Es.
  exists vs, s.
  split; [exact Hvs|]. split; [exact Hp'|]. split; [apply Hred|].
  split; [exact Hs|]. split; [exact Hrun|].
  rewrite Es; cbn [aPtr returnValue newMean].
  repeat split. lia.
Qed.

Lemma two_phase_totals `{!SumLaws ops} {V : Type}
      (body : buffer F -> vector_state V -> option (vector_state V))
      (reduce : vector_state V -> scalar_state F)
      (init : vector_state V) (d : Z) (hs : V -> F) :
  0 < d ->
  strides vPtr (Z.to_nat d) body -> vPtr init = O ->
  (forall vs, reduce vs = mk_scalar (vPtr vs) (hs (squareAccumulator vs))
                                    (hs (accumulator vs))) ->
  accumulates vPtr (fun s => hs (accumulator s))
              (fun s => hs (squareAccumulator s)) (Z.to_nat d) body ->
  hs (accumulator init) = f_zero -> hs (squareAccumulator init) = f_zero ->
  forall buf n,
    0 <= n < UINT_MODULUS -> (Z.to_nat n <= length buf)%nat ->
    adds_every_sample_once (vector_phase body init d) hs
                           (two_phase body reduce init d) buf n.
Proof.
  intros Hpos Hb Hi Hred Hacc Hz Hzq buf n Hn Hlen.
  assert (Hr : forall vs, aPtr (reduce vs) = vPtr vs)
    by (intros vs; now rewrite Hred).
  destruct (two_phase_ok body reduce init d Hpos Hb Hi Hr buf n Hn Hlen)
    as (vs & s & Hvs & Hp & _ & Hrun & _).
  destruct (vector_phase_sums body init d Hi hs Hacc Hz Hzq buf n vs Hvs)
    as (Hm & Hq).
  pose proof (two_phase_exact body reduce init d Hpos Hb Hi Hr hs Hred
                Hacc Hz Hzq buf n Hn Hlen) as Hex.
  rewrite Hrun, generic_run_spec in Hex by assumption.
  injection Hex as ->.
  exists vs. eexists.
  split; [exact Hvs|]. split; [exact Hrun|].
  rewrite Hp. split; [exact Hm|]. split; [exact Hq|].
  split; reflexivity.
Qed.

(** C4: a vector kernel with lane width [W] and unroll factor [U] consumes
    [(n / (U*W)) * (U*W)] floats in its vector loop and the remaining
    [n mod (U*W)] in its scalar loop, which goes on from the reduced vector
    accumulators; the totals it ends with are the sums of all [n] floats and
    of all [n] squares, each counted once (stated for order-independent
    addition, where the sum of a collection of floats is one value). *)
Theorem work_split_counts_every_sample_once :
  forall (buf : buffer F) (n : Z),
    0 <= n < UINT_MODULUS -> (Z.to_nat n <= length buf)%nat ->
    (splits_work a_sse_vector_loop reduce128 hsum128 a_sse_run 4 1 buf n
     /\ splits_work a_sse4_1_vector_loop reduce128 hsum128 a_sse4_1_run
                    4 4 buf n
     /\ splits_work (avx_vector_loop _mm256_load_ps) reduce256 hsum256
                    a_avx_run 8 4 buf n
     /\ splits_work (avx_vector_loop _mm256_loadu_ps) reduce256 hsum256
                    u_avx_run 8 4 buf n)
    /\ (SumLaws ops ->
        adds_every_sample_once a_sse_vector_loop hsum128 a_sse_run buf n
        /\ adds_every_sample_once a_sse4_1_vector_loop hsum128 a_sse4_1_run
                                  buf n
        /\ adds_every_sample_once (avx_vector_loop _mm256_load_ps) hsum256
                                  a_avx_run buf n
        /\ adds_every_sample_once (avx_vector_loop _mm256_loadu_ps) hsum256
                                  u_avx_run buf n).
Proof.
  intros buf n Hn Hlen. split; [|intros L]; repeat apply conj.
  - apply (two_phase_splits a_sse_body reduce128 vector_init128 4 4 1 hsum128
             eq_refl ltac:(lia) a_sse_strides eq_refl (fun _ => eq_refl)
             buf n Hn Hlen).
  - apply (two_phase_splits a_sse4_1_body reduce128 vector_init128 16 4 4
             hsum128 eq_refl ltac:(lia) a_sse4_1_strides eq_refl
             (fun _ => eq_refl) buf n Hn Hlen).
  - apply (two_phase_splits (avx_body _mm256_loadu_ps) reduce256
             vector_init256 32 8 4 hsum256 eq_refl ltac:(lia) avx_strides
             eq_refl (fun _ => eq_refl) buf n Hn Hlen).
  - apply (two_phase_splits (avx_body _mm256_loadu_ps) reduce256
             vector_init256 32 8 4 hsum256 eq_refl ltac:(lia) avx_strides
             eq_refl (fun _ => eq_refl) buf n Hn Hlen).
  - apply (two_phase_totals a_sse_body reduce128 vector_init128 4 hsum128
             ltac:(lia) a_sse_strides eq_refl (fun _ => eq_refl)
             a_sse_accumulates hsum128_zero hsum128_zero buf n Hn Hlen).
  - apply (two_phase_totals a_sse4_1_body reduce128 vector_init128 16
             hsum128 ltac:(lia) a_sse4_1_strides eq_refl
             (fun _ => eq_refl) a_sse4_1_accumulates hsum128_zero
             hsum128_zero buf n Hn Hlen).
  - apply (two_phase_totals (avx_body _mm256_loadu_ps) reduce256
             vector_init256 32 hsum256 ltac:(lia) avx_strides
             eq_refl (fun _ => eq_refl) avx_accumulates hsum256_zero
             hsum256_zero buf n Hn Hlen).
  - apply (two_phase_totals (avx_body _mm256_loadu_ps) reduce256
             vector_init256 32 hsum256 ltac:(lia) avx_strides
             eq_refl (fun _ => eq_refl) avx_accumulates hsum256_zero
             hsum256_zero buf n Hn Hlen).
Qed.

End Structure.

Lemma work_split_counts_every_sample_once_witness :
  exists vs s,
    a_sse_vector_loop (ops := z_ops) [1; 2; 3; 4; 5; 6] 6 = Some vs
    /\ vPtr vs = 4%nat
    /\ a_sse_run [1; 2; 3; 4; 5; 6] 6 = Some s
    /\ aPtr s = 6%nat /\ newMean s = 21 /\ returnValue s = 91.
Proof.
  destruct (work_split_counts_every_sample_once (ops := z_ops)
              [1; 2; 3; 4; 5; 6] 6) as ((H & _) & T);
    [unfold UINT_MODULUS; lia | simpl; lia |].
  destruct H as (vs & s & H1 & H2 & _ & _ & H5 & _ & H7 & _).
  destruct (T z_sum_laws) as ((vs' & s' & _ & T2 & _ & _ & T5 & T6) & _).
  rewrite H5 in T2. injection T2 as <-.
  exists vs, s. repeat split; assumption.
Defined.

Section OuterLoops.
Context {F : Type} {ops : FloatOps F}.

Lemma a_sse_body_ptr (buf : buffer F) (s s' : vector_state (m128 F)) :
  a_sse_body buf s = Some s' -> vPtr s' = (vPtr s + 4)%nat.
Proof.
  unfold a_sse_body. intros H.
  destruct (_mm_load_ps buf (vPtr s)); simpl in H; [|discriminate].
  now injection H as <-.
Qed.

Lemma a_sse4_1_body_ptr (buf : buffer F) (s s' : vector_state (m128 F)) :
  a_sse4_1_body buf s = Some s' -> vPtr s' = (vPtr s + 16)%nat.
Proof.
  unfold a_sse4_1_body. intros H.
  destruct (_mm_load_ps buf (vPtr s)); simpl in H; [|discriminate].
  destruct (_mm_load_ps buf (vPtr s + 4)); simpl in H; [|discriminate].
  destruct (_mm_load_ps buf (vPtr s + 4 + 4)); simpl in H; [|discriminate].
  destruct (_mm_load_ps buf (vPtr s + 4 + 4 + 4)); simpl in H;
    [|discriminate].
  injection H as <-. simpl. lia.
Qed.

Lemma avx_body_ptr (buf : buffer F) (s s' : vector_state (m256 F)) :
  avx_body _mm256_loadu_ps buf s = Some s' -> vPtr s' = (vPtr s + 32)%nat.
Proof.
  unfold avx_body. intros H.
  destruct (_mm256_loadu_ps buf (vPtr s)); simpl in H; [|discriminate].
  destruct (_mm256_loadu_ps buf (vPtr s + 8)); simpl in H; [|discriminate].
  destruct (_mm256_loadu_ps buf (vPtr s + 8 + 8)); simpl in H;
    [|discriminate].
  destruct (_mm256_loadu_ps buf (vPtr s + 8 + 8 + 8)); simpl in H;
    [|discriminate].
  injection H as <-. simpl. lia.
Qed.

Lemma shape_of_strides {V : Type} (store : V -> list F)
      (body : buffer F -> vector_state V -> option (vector_state V))
      (init : vector_state V) (W U : Z) :
  (forall v, length (store v) = Z.to_nat W) ->
  strides vPtr (Z.to_nat (U * W)) body ->
  (forall buf s s',
      body buf s = Some s' -> vPtr s' = (vPtr s + Z.to_nat (U * W))%nat) ->
  outer_loop_shape store (vector_phase body init (U * W)) body init W U.
Proof.
  intros Hw Hs Hp. split; [exact Hw|]. split; [|split; [|exact Hp]].
  - intros buf n. unfold vector_phase, for_count, uint_div.
    now rewrite Z.sub_0_r.
  - intros buf s Hlen.
    destruct (stride_ok _ _ _ Hs buf s Hlen) as (s' & H & _).
    now exists s'.
Qed.

(** C5, amended: the SSE kernel is 4 wide with unroll factor 1 (4 floats
    per outer step, [n / 4] steps); the SSE4.1 kernel is 4 wide with unroll
    factor 4 (16 floats per outer step, [n / 16] steps); both AVX kernels
    are 8 wide with unroll factor 4 (32 floats per outer step, [n / 32]
    steps). *)
Theorem outer_loop_shapes :
  outer_loop_shape _mm_store_ps a_sse_vector_loop a_sse_body
                   vector_init128 4 1
  /\ outer_loop_shape _mm_store_ps a_sse4_1_vector_loop a_sse4_1_body
                      vector_init128 4 4
  /\ outer_loop_shape _mm256_store_ps (avx_vector_loop _mm256_load_ps)
                      (avx_body _mm256_load_ps) vector_init256 8 4
  /\ outer_loop_shape _mm256_store_ps (avx_vector_loop _mm256_loadu_ps)
                      (avx_body _mm256_loadu_ps) vector_init256 8 4.
Proof.
  split; [|split; [|split]].
  - apply (shape_of_strides _mm_store_ps a_sse_body vector_init128 4 1
             (fun _ => eq_refl) a_sse_strides a_sse_body_ptr).
  - apply (shape_of_strides _mm_store_ps a_sse4_1_body vector_init128 4 4
             (fun _ => eq_refl) a_sse4_1_strides a_sse4_1_body_ptr).
  - apply (shape_of_strides _mm256_store_ps (avx_body _mm256_loadu_ps)
             vector_init256 8 4 (fun _ => eq_refl) avx_strides avx_body_ptr).
  - apply (shape_of_strides _mm256_store_ps (avx_body _mm256_loadu_ps)
             vector_init256 8 4 (fun _ => eq_refl) avx_strides avx_body_ptr).
Qed.

(** C8: on a buffer of at least [n] floats every kernel runs to
    completion, moves [aPtr] over exactly [n] floats, and does the same on
    the buffer cut to its first [n] floats, where a load at index [n] or
    beyond would fail: no float outside [0 .. n-1] is read. *)
Theorem kernels_read_only_the_first_n :
  forall (buf : buffer F) (n : Z),
    0 <= n < UINT_MODULUS -> (Z.to_nat n <= length buf)%nat ->
    (reads_prefix generic_run buf n
     /\ reads_prefix a_sse_run buf n
     /\ reads_prefix a_sse4_1_run buf n
     /\ reads_prefix a_avx_run buf n
     /\ reads_prefix u_avx_run buf n)
    /\ (volk_32f_stddev_and_mean_32f_x2_generic (firstn (Z.to_nat n) buf) n
          = volk_32f_stddev_and_mean_32f_x2_generic buf n
        /\ volk_32f_stddev_and_mean_32f_x2_a_sse (firstn (Z.to_nat n) buf) n
          = volk_32f_stddev_and_mean_32f_x2_a_sse buf n
        /\ volk_32f_stddev_and_mean_32f_x2_a_sse4_1
             (firstn (Z.to_nat n) buf) n
          = volk_32f_stddev_and_mean_32f_x2_a_sse4_1 buf n
        /\ volk_32f_stddev_and_mean_32f_x2_a_avx (firstn (Z.to_nat n) buf) n
          = volk_32f_stddev_and_mean_32f_x2_a_avx buf n
        /\ volk_32f_stddev_and_mean_32f_x2_u_avx (firstn (Z.to_nat n) buf) n
          = volk_32f_stddev_and_mean_32f_x2_u_avx buf n).
Proof.
  intros buf n Hn Hlen.
  assert (G : reads_prefix generic_run buf n)
    by now apply generic_reads_prefix.
  assert (S1 : reads_prefix a_sse_run buf n).
  { rewrite a_sse_two_phase.
    apply two_phase_reads_prefix;
      [lia | exact a_sse_strides | reflexivity | reflexivity
       | assumption | assumption]. }
  assert (S4 : reads_prefix a_sse4_1_run buf n).
  { rewrite a_sse4_1_two_phase.
    apply two_phase_reads_prefix;
      [lia | exact a_sse4_1_strides | reflexivity | reflexivity
       | assumption | assumption]. }
  assert (A : reads_prefix a_avx_run buf n).
  { rewrite a_avx_two_phase.
    apply two_phase_reads_prefix;
      [lia | exact avx_strides | reflexivity | reflexivity
       | assumption | assumption]. }
  assert (U : reads_prefix u_avx_run buf n) by exact A.
  split; [repeat split; assumption|]. clear U.
  destruct G as (g & G1 & _ & G2). destruct S1 as (s1 & S11 & _ & S12).
  destruct S4 as (s4 & S41 & _ & S42). destruct A as (a & A1 & _ & A2).
  repeat split; apply kernel_ext.
  - now rewrite G1, G2.
  - now rewrite S11, S12.
  - now rewrite S41, S42.
  - now rewrite A1, A2.
  - change (@u_avx_run F ops) with (@a_avx_run F ops). now rewrite A1, A2.
Qed.

(** C9: with masks 0xF1, 0xF2, 0xF4 and 0xF8 the four dot products land in
    lanes 0, 1, 2 and 3 of each 128-bit group, every other lane being zero,
    so the three ors put the four values side by side unchanged; and every
    outer step that has its 16 (SSE4.1) or 32 (AVX) floats completes, after
    which the lanes of [squareAccumulator] add up to the sum of the squares
    of the floats consumed so far (for order-independent addition). *)
Theorem dot_product_lanes_and_square_invariant :
  forall (O : OrZeroLaws ops),
    (forall a1 a2 a3 a4 : m128 F,
        _mm_dp_ps a1 a1 0xF1 = mk128 (dot4 a1 a1) f_zero f_zero f_zero
        /\ _mm_dp_ps a2 a2 0xF2 = mk128 f_zero (dot4 a2 a2) f_zero f_zero
        /\ _mm_dp_ps a3 a3 0xF4 = mk128 f_zero f_zero (dot4 a3 a3) f_zero
        /\ _mm_dp_ps a4 a4 0xF8 = mk128 f_zero f_zero f_zero (dot4 a4 a4)
        /\ _mm_or_ps
             (_mm_or_ps (_mm_dp_ps a1 a1 0xF1) (_mm_dp_ps a2 a2 0xF2))
             (_mm_or_ps (_mm_dp_ps a3 a3 0xF4) (_mm_dp_ps a4 a4 0xF8))
           = mk128 (dot4 a1 a1) (dot4 a2 a2) (dot4 a3 a3) (dot4 a4 a4))
    /\ (forall a1 a2 a3 a4 : m256 F,
           _mm256_or_ps
             (_mm256_or_ps (_mm256_dp_ps a1 a1 0xF1)
                           (_mm256_dp_ps a2 a2 0xF2))
             (_mm256_or_ps (_mm256_dp_ps a3 a3 0xF4)
                           (_mm256_dp_ps a4 a4 0xF8))
           = mk256
               (mk128 (dot4 (lo128 a1) (lo128 a1)) (dot4 (lo128 a2) (lo128 a2))
                      (dot4 (lo128 a3) (lo128 a3)) (dot4 (lo128 a4) (lo128 a4)))
               (mk128 (dot4 (hi128 a1) (hi128 a1)) (dot4 (hi128 a2) (hi128 a2))
                      (dot4 (hi128 a3) (hi128 a3))
                      (dot4 (hi128 a4) (hi128 a4))))
    /\ (SumLaws ops ->
        (forall buf k,
            (k * 16 <= length buf)%nat ->
            exists s,
              iterate k (a_sse4_1_body buf) vector_init128 = Some s
              /\ vPtr s = (k * 16)%nat
              /\ hsum128 (squareAccumulator s)
                 = sumsq_from f_zero (firstn (vPtr s) buf))
        /\ (forall buf k,
               (k * 32 <= length buf)%nat ->
               exists s,
                 iterate k (avx_body _mm256_load_ps buf) vector_init256
                   = Some s
                 /\ vPtr s = (k * 32)%nat
                 /\ hsum256 (squareAccumulator s)
                    = sumsq_from f_zero (firstn (vPtr s) buf))
        /\ (forall buf k,
               (k * 32 <= length buf)%nat ->
               exists s,
                 iterate k (avx_body _mm256_loadu_ps buf) vector_init256
                   = Some s
                 /\ vPtr s = (k * 32)%nat
                 /\ hsum256 (squareAccumulator s)
                    = sumsq_from f_zero (firstn (vPtr s) buf))
        /\ (forall buf k s,
               iterate k (a_sse4_1_body buf) vector_init128 = Some s ->
               vPtr s = (k * 16)%nat
               /\ hsum128 (squareAccumulator s)
                  = sumsq_from f_zero (firstn (vPtr s) buf))
        /\ (forall buf k s,
               iterate k (avx_body _mm256_load_ps buf) vector_init256
                 = Some s ->
               vPtr s = (k * 32)%nat
               /\ hsum256 (squareAccumulator s)
                  = sumsq_from f_zero (firstn (vPtr s) buf))
        /\ (forall buf k s,
               iterate k (avx_body _mm256_loadu_ps buf) vector_init256
                 = Some s ->
               vPtr s = (k * 32)%nat
               /\ hsum256 (squareAccumulator s)
                  = sumsq_from f_zero (firstn (vPtr s) buf))).
Proof.
  intros O. split; [|split].
  - intros a1 a2 a3 a4.
    repeat split. apply (or_combine_lanes a1 a2 a3 a4).
  - intros a1 a2 a3 a4. unfold _mm256_or_ps, _mm256_dp_ps; cbn [lo128 hi128].
    f_equal; apply or_combine_lanes.
  - intros L.
    assert (A : forall buf k s,
               iterate k (avx_body _mm256_loadu_ps buf) vector_init256
                 = Some s ->
               vPtr s = (k * 32)%nat
               /\ hsum256 (squareAccumulator s)
                  = sumsq_from f_zero (firstn (vPtr s) buf)).
    { intros buf k s H.
      destruct (iterate_accumulates _ _ _ _ _ avx_accumulates _ _ _ _ H)
        as (Hp & _ & Hq).
      unfold vector_init256 in Hp, Hq.
      cbn [vPtr squareAccumulator] in Hp, Hq. rewrite hsum256_zero in Hq.
      rewrite Hp. split; [reflexivity | exact Hq]. }
    assert (S4 : forall buf k s,
               iterate k (a_sse4_1_body buf) vector_init128 = Some s ->
               vPtr s = (k * 16)%nat
               /\ hsum128 (squareAccumulator s)
                  = sumsq_from f_zero (firstn (vPtr s) buf)).
    { intros buf k s H.
      destruct (iterate_accumulates _ _ _ _ _ a_sse4_1_accumulates _ _ _ _ H)
        as (Hp & _ & Hq).
      unfold vector_init128 in Hp, Hq.
      cbn [vPtr squareAccumulator] in Hp, Hq. rewrite hsum128_zero in Hq.
      rewrite Hp. split; [reflexivity | exact Hq]. }
    assert (AT : forall buf k,
               (k * 32 <= length buf)%nat ->
               exists s,
                 iterate k (avx_body _mm256_loadu_ps buf) vector_init256
                   = Some s
                 /\ vPtr s = (k * 32)%nat
                 /\ hsum256 (squareAccumulator s)
                    = sumsq_from f_zero (firstn (vPtr s) buf)).
    { intros buf k Hlen.
      destruct (iterate_stride_ok _ _ _ avx_strides buf k vector_init256)
        as (s & Hs & _); [exact Hlen|].
      exists s. split; [exact Hs | now apply (A buf k)]. }
    split; [|split; [exact AT | split; [exact AT | split;
      [exact S4 | split; exact A]]]].
    intros buf k Hlen.
    destruct (iterate_stride_ok _ _ _ a_sse4_1_strides buf k vector_init128)
      as (s & Hs & _); [exact Hlen|].
    exists s. split; [exact Hs | now apply (S4 buf k)].
Qed.

End OuterLoops.

(** C5, as stated, fails for the SSE4.1 kernel: it is 4 wide, but one outer
    step moves over 16 floats, not 4. *)
Lemma sse4_1_unroll_counterexample :
  ~ outer_loop_shape _mm_store_ps (a_sse4_1_vector_loop (ops := z_ops))
      a_sse4_1_body vector_init128 4 1.
Proof.
  intros (_ & _ & _ & H).
  specialize (H (repeat 0 16) vector_init128 _ eq_refl).
  discriminate H.
Qed.

Lemma kernels_read_only_the_first_n_witness :
  reads_prefix (a_sse4_1_run (ops := z_ops))
    (map Z.of_nat (seq 1 40)) 37
  /\ volk_32f_stddev_and_mean_32f_x2_a_avx (ops := z_ops)
       (firstn 37 (map Z.of_nat (seq 1 40))) 37
     = volk_32f_stddev_and_mean_32f_x2_a_avx (map Z.of_nat (seq 1 40)) 37.
Proof.
  destruct (kernels_read_only_the_first_n (ops := z_ops)
              (map Z.of_nat (seq 1 40)) 37) as (H1 & H2);
    [unfold UINT_MODULUS; lia | simpl; lia |].
  split; [apply H1 | apply H2].
Defined.

Lemma dot_product_lanes_and_square_invariant_witness :
  (exists s,
      iterate 1 (a_sse4_1_body (ops := z_ops) (map Z.of_nat (seq 1 16)))
              vector_init128 = Some s
      /\ squareAccumulator s = mk128 30 174 446 846
      /\ hsum128 (squareAccumulator s) = 1496)
  /\ (exists s,
        iterate 1 (avx_body (ops := z_ops) _mm256_load_ps
                            (map Z.of_nat (seq 1 32)))
                vector_init256 = Some s
        /\ squareAccumulator s
           = mk256 (mk128 30 446 1374 2814) (mk128 174 846 2030 3726)
        /\ hsum256 (squareAccumulator s) = 11440)
  /\ (exists s,
        iterate 2 (avx_body (ops := z_ops) _mm256_loadu_ps
                            (map Z.of_nat (seq 1 70)))
                vector_init256 = Some s
        /\ vPtr s = 64%nat
        /\ hsum256 (squareAccumulator s) = 89440).
Proof.
  destruct (dot_product_lanes_and_square_invariant (ops := z_ops) z_or_zero)
    as (_ & _ & H).
  destruct (H z_sum_laws) as (H4 & HA & HU & _).
  split; [|split].
  - destruct (H4 (map Z.of_nat (seq 1 16)) 1%nat) as (s & Hs & Hp & Hq);
      [simpl; lia|].
    exists s. split; [exact Hs|].
    split; [|rewrite Hq, Hp; reflexivity].
    vm_compute in Hs. now injection Hs as <-.
  - destruct (HA (map Z.of_nat (seq 1 32)) 1%nat) as (s & Hs & Hp & Hq);
      [simpl; lia|].
    exists s. split; [exact Hs|].
    split; [|rewrite Hq, Hp; reflexivity].
    vm_compute in Hs. now injection Hs as <-.
  - destruct (HU (map Z.of_nat (seq 1 70)) 2%nat) as (s & Hs & Hp & Hq);
      [simpl; lia|].
    exists s. split; [exact Hs|]. split; [exact Hp|].
    rewrite Hq, Hp. reflexivity.
Defined.

(** * Further properties of the kernels *)

(** ** A call is in bounds exactly when the buffer holds [num_points] floats *)

Section OutOfBounds.
Context {F : Type} {ops : FloatOps F}.

Lemma load_ps_some_length (buf : buffer F) (p : nat) (v : m128 F) :
  _mm_load_ps buf p = Some v -> (p + 4 <= length buf)%nat.
Proof.
  intros H. destruct (load_ps_inv _ _ _ H) as (r & E & _).
  apply (f_equal (@length F)) in E. rewrite length_skipn in E.
  simpl in E. lia.
Qed.

Lemma loadu256_some_length (buf : buffer F) (p : nat) (v : m256 F) :
  _mm256_loadu_ps buf p = Some v -> (p + 8 <= length buf)%nat.
Proof.
  intros H. destruct (loadu256_inv _ _ _ H) as (r & E & _).
  apply (f_equal (@length F)) in E. rewrite length_skipn in E.
  simpl in E. lia.
Qed.

Lemma scalar_body_some_length (buf : buffer F) (s s' : scalar_state F) :
  scalar_body buf s = Some s' -> (aPtr s + 1 <= length buf)%nat.
Proof.
  unfold scalar_body, deref. intros H.
  destruct (nth_error buf (aPtr s)) as [x|] eqn:E; [|discriminate].
  assert (nth_error buf (aPtr s) <> None) as N by congruence.
  apply nth_error_Some in N. lia.
Qed.

Lemma a_sse_body_some_length (buf : buffer F) (s s' : vector_state (m128 F)) :
  a_sse_body buf s = Some s' -> (vPtr s + 4 <= length buf)%nat.
Proof.
  unfold a_sse_body. intros H.
  destruct (_mm_load_ps buf (vPtr s)) eqn:E; [|discriminate].
  now apply load_ps_some_length in E.
Qed.

Lemma a_sse4_1_body_some_length (buf : buffer F)
      (s s' : vector_state (m128 F)) :
  a_sse4_1_body buf s = Some s' -> (vPtr s + 16 <= length buf)%nat.
Proof.
  unfold a_sse4_1_body. intros H.
  destruct (_mm_load_ps buf (vPtr s)); simpl in H; [|discriminate].
  destruct (_mm_load_ps buf (vPtr s + 4)); simpl in H; [|discriminate].
  destruct (_mm_load_ps buf (vPtr s + 4 + 4)); simpl in H; [|discriminate].
  destruct (_mm_load_ps buf (vPtr s + 4 + 4 + 4)) eqn:E; [|discriminate].
  apply load_ps_some_length in E. lia.
Qed.

Lemma avx_body_some_length (buf : buffer F) (s s' : vector_state (m256 F)) :
  avx_body _mm256_loadu_ps buf s = Some s' -> (vPtr s + 32 <= length buf)%nat.
Proof.
  unfold avx_body. intros H.
  destruct (_mm256_loadu_ps buf (vPtr s)); simpl in H; [|discriminate].
  destruct (_mm256_loadu_ps buf (vPtr s + 8)); simpl in H; [|discriminate].
  destruct (_mm256_loadu_ps buf (vPtr s + 8 + 8)); simpl in H;
    [|discriminate].
  destruct (_mm256_loadu_ps buf (vPtr s + 8 + 8 + 8)) eqn:E; [|discriminate].
  apply loadu256_some_length in E. lia.
Qed.

(** A loop that came to its end has stayed inside the buffer. *)
Lemma iterate_some_length {S : Type} (ptr : S -> nat) (step : nat)
      (body : buffer F -> S -> option S) :
  (forall buf s s', body buf s = Some s' ->
                    (ptr s + step <= length buf)%nat
                    /\ ptr s' = (ptr s + step)%nat) ->
  forall buf k s s',
    iterate k (body buf) s = Some s' ->
    ptr s' = (ptr s + k * step)%nat
    /\ (k = O \/ (ptr s + k * step <= length buf)%nat).
Proof.
  intros Hb buf k; induction k as [|k IH]; intros s s' H; simpl in H.
  - injection H as <-. split; [lia | now left].
  - destruct (body buf s) as [s1|] eqn:E; simpl in H; [|discriminate].
    destruct (Hb _ _ _ E) as (Hlen & Hp).
    destruct (IH _ _ H) as (Hp' & Hk).
    split; [simpl; lia|]. right. destruct Hk as [->|Hk]; simpl; lia.
Qed.

Lemma generic_run_short (buf : buffer F) (n : Z) :
  (length buf < Z.to_nat n)%nat -> generic_run buf n = None.
Proof.
  intros Hlen. unfold generic_run, for_count. rewrite Z.sub_0_r.
  destruct (iterate _ _ _) as [s|] eqn:E; [|reflexivity].
  apply (iterate_some_length aPtr 1 scalar_body) in E.
  - simpl in E. lia.
  - intros b s0 s1 H. split; [now apply scalar_body_some_length in H|].
    now destruct (scalar_accumulates _ _ _ H) as (Hp & _).
Qed.

Lemma two_phase_short {V : Type}
      (body : buffer F -> vector_state V -> option (vector_state V))
      (reduce : vector_state V -> scalar_state F)
      (init : vector_state V) (d : Z) :
  0 < d -> vPtr init = O ->
  (forall vs, aPtr (reduce vs) = vPtr vs) ->
  (forall buf s s', body buf s = Some s' ->
                    (vPtr s + Z.to_nat d <= length buf)%nat
                    /\ vPtr s' = (vPtr s + Z.to_nat d)%nat) ->
  forall buf n,
    0 <= n < UINT_MODULUS -> (length buf < Z.to_nat n)%nat ->
    two_phase body reduce init d buf n = None.
Proof.
  intros Hd Hi Hr Hb buf n Hn Hlen.
  pose proof (groups_plus_tail n d Hd (proj1 Hn)) as Hsplit.
  unfold two_phase, vector_phase, for_count, uint_div. rewrite Z.sub_0_r.
  destruct (iterate (Z.to_nat (n / d)) (body buf) init) as [vs|] eqn:Ev;
    [simpl | reflexivity].
  apply (iterate_some_length vPtr (Z.to_nat d) body Hb) in Ev.
  rewrite Hi in Ev. destruct Ev as (Hp & Hk).
  change (n / d) with (uint_div n d). rewrite tail_count_mod by lia.
  destruct (iterate (Z.to_nat (n mod d)) (scalar_body buf) (reduce vs))
    as [s|] eqn:Es; [|reflexivity].
  apply (iterate_some_length aPtr 1 scalar_body) in Es.
  - rewrite Hr in Es. unfold uint_div in *.
    destruct Es as (_ & [E0|Es]); destruct Hk as [K0|Hk]; simpl in *; lia.
  - intros b s0 s1 H. split; [now apply scalar_body_some_length in H|].
    now destruct (scalar_accumulates _ _ _ H) as (Hp' & _).
Qed.

Lemma kernel_none_iff (run : buffer F -> Z -> option (scalar_state F))
      (buf : buffer F) (n : Z) :
  0 < n -> (kernel run buf n = None <-> run buf n = None).
Proof.
  intros Hn. unfold kernel. rewrite (proj2 (Z.ltb_lt 0 n) Hn).
  destruct (run buf n); simpl; split; congruence.
Qed.

Lemma run_in_bounds_iff (run : buffer F -> Z -> option (scalar_state F))
      (buf : buffer F) (n : Z) :
  0 < n ->
  ((Z.to_nat n <= length buf)%nat -> reads_prefix run buf n) ->
  ((length buf < Z.to_nat n)%nat -> run buf n = None) ->
  (kernel run buf n = None <-> (length buf < Z.to_nat n)%nat).
Proof.
  intros Hn Hok Hshort. rewrite kernel_none_iff by assumption. split.
  - intros E. destruct (Nat.lt_ge_cases (length buf) (Z.to_nat n))
      as [Hl|Hl]; [assumption|].
    destruct (Hok Hl) as (s & Hs & _). congruence.
  - exact Hshort.
Qed.

(** X1: for [0 < num_points < 2^32] a kernel makes a read outside the
    buffer exactly when the buffer holds fewer than [num_points] floats. *)
Theorem out_of_bounds_iff_short_buffer :
  forall (buf : buffer F) (n : Z),
    0 < n < UINT_MODULUS ->
    (volk_32f_stddev_and_mean_32f_x2_generic buf n = None
       <-> (length buf < Z.to_nat n)%nat)
    /\ (volk_32f_stddev_and_mean_32f_x2_a_sse buf n = None
          <-> (length buf < Z.to_nat n)%nat)
    /\ (volk_32f_stddev_and_mean_32f_x2_a_sse4_1 buf n = None
          <-> (length buf < Z.to_nat n)%nat)
    /\ (volk_32f_stddev_and_mean_32f_x2_a_avx buf n = None
          <-> (length buf < Z.to_nat n)%nat)
    /\ (volk_32f_stddev_and_mean_32f_x2_u_avx buf n = None
          <-> (length buf < Z.to_nat n)%nat).
Proof.
  intros buf n Hn.
  assert (Hr : 0 <= n < UINT_MODULUS) by lia.
  assert (A : volk_32f_stddev_and_mean_32f_x2_a_avx buf n = None
              <-> (length buf < Z.to_nat n)%nat).
  { apply run_in_bounds_iff; [lia | |].
    - intros Hl. rewrite a_avx_two_phase.
      apply two_phase_reads_prefix;
        [lia | exact avx_strides | reflexivity | reflexivity
         | assumption | assumption].
    - intros Hl. rewrite a_avx_two_phase.
      apply two_phase_short;
        [lia | reflexivity | reflexivity | | assumption | assumption].
      intros b s s' H. split; [now apply avx_body_some_length in H|].
      now apply avx_body_ptr in H. }
  split; [|split; [|split; [|split; exact A]]].
  - apply run_in_bounds_iff; [lia | |].
    + now apply generic_reads_prefix.
    + now apply generic_run_short.
  - apply run_in_bounds_iff; [lia | |].
    + intros Hl. rewrite a_sse_two_phase.
      apply two_phase_reads_prefix;
        [lia | exact a_sse_strides | reflexivity | reflexivity
         | assumption | assumption].
    + intros Hl. rewrite a_sse_two_phase.
      apply two_phase_short;
        [lia | reflexivity | reflexivity | | assumption | assumption].
      intros b s s' H. split; [now apply a_sse_body_some_length in H|].
      now apply a_sse_body_ptr in H.
  - apply run_in_bounds_iff; [lia | |].
    + intros Hl. rewrite a_sse4_1_two_phase.
      apply two_phase_reads_prefix;
        [lia | exact a_sse4_1_strides | reflexivity | reflexivity
         | assumption | assumption].
    + intros Hl. rewrite a_sse4_1_two_phase.
      apply two_phase_short;
        [lia | reflexivity | reflexivity | | assumption | assumption].
      intros b s s' H. split; [now apply a_sse4_1_body_some_length in H|].
      now apply a_sse4_1_body_ptr in H.
Qed.

End OutOfBounds.

Lemma out_of_bounds_iff_short_buffer_witness :
  volk_32f_stddev_and_mean_32f_x2_a_sse4_1 (ops := z_ops)
    (map Z.of_nat (seq 1 20)) 21 = None
  /\ volk_32f_stddev_and_mean_32f_x2_a_sse4_1 (ops := z_ops)
       (map Z.of_nat (seq 1 20)) 20 <> None.
Proof.
  destruct (out_of_bounds_iff_short_buffer (ops := z_ops)
              (map Z.of_nat (seq 1 20)) 21) as (_ & _ & H & _);
    [unfold UINT_MODULUS; lia |].
  destruct (out_of_bounds_iff_short_buffer (ops := z_ops)
              (map Z.of_nat (seq 1 20)) 20) as (_ & _ & H' & _);
    [unfold UINT_MODULUS; lia |].
  split.
  - apply H. simpl. lia.
  - intros E. apply H' in E. simpl in E. lia.
Defined.

(** ** The start of the scalar tail *)

(** X2: [number = quarterPoints * 4] (and the like with 16 and 32) does
    not wrap around for any unsigned [num_points]: it is [num_points] rounded
    down to a multiple of the group size, so the scalar tail runs fewer
    than 4, 16 or 32 times. *)
Theorem tail_start_does_not_wrap :
  forall n : Z,
    0 <= n < UINT_MODULUS ->
    (uint_mul (quarterPoints n) 4 = n - n mod 4
     /\ (tail_count (quarterPoints n) 4 n < 4)%nat)
    /\ (uint_mul (sixteenthPoints n) 16 = n - n mod 16
        /\ (tail_count (sixteenthPoints n) 16 n < 16)%nat)
    /\ (uint_mul (thirtySecondthPoints n) 32 = n - n mod 32
        /\ (tail_count (thirtySecondthPoints n) 32 n < 32)%nat).
Proof.
  intros n Hn.
  assert (G : forall d, 0 < d ->
                uint_mul (uint_div n d) d = n - n mod d
                /\ (tail_count (uint_div n d) d n < Z.to_nat d)%nat).
  { intros d Hd. rewrite tail_count_mod, uint_mul_div by lia.
    pose proof (Z.mod_pos_bound n d Hd).
    split; [rewrite (Z.div_mod n d) at 2 by lia; lia | lia]. }
  split; [|split].
  - apply (G 4); lia.
  - apply (G 16); lia.
  - apply (G 32); lia.
Qed.

Lemma tail_start_does_not_wrap_witness :
  uint_mul (thirtySecondthPoints 4294967295) 32 = 4294967264
  /\ tail_count (thirtySecondthPoints 4294967295) 32 4294967295 = 31%nat.
Proof.
  destruct (tail_start_does_not_wrap 4294967295) as (_ & _ & H & _);
    [unfold UINT_MODULUS; lia |].
  split; [exact H | reflexivity].
Defined.

(** ** The order of the samples *)

Section Reordering.
Context {F : Type} {ops : FloatOps F}.

Lemma sum_from_permutation `{!SumLaws ops} (xs ys : list F) :
  Permutation xs ys -> forall a, sum_from a xs = sum_from a ys.
Proof.
  induction 1 as [|x xs ys _ IH|x y xs|xs ys zs _ IH1 _ IH2]; intros a;
    simpl.
  - reflexivity.
  - apply IH.
  - f_equal. rewrite <- !add_assoc. f_equal. apply add_comm.
  - now rewrite IH1.
Qed.

Lemma sumsq_from_permutation `{!SumLaws ops} (xs ys : list F) :
  Permutation xs ys -> forall a, sumsq_from a xs = sumsq_from a ys.
Proof.
  induction 1 as [|x xs ys _ IH|x y xs|xs ys zs _ IH1 _ IH2]; intros a;
    simpl.
  - reflexivity.
  - apply IH.
  - f_equal. rewrite <- !add_assoc. f_equal. apply add_comm.
  - now rewrite IH1.
Qed.

Lemma generic_run_permutation `{!SumLaws ops} (buf buf' : buffer F) (n : Z) :
  (Z.to_nat n <= length buf)%nat -> (Z.to_nat n <= length buf')%nat ->
  Permutation (firstn (Z.to_nat n) buf) (firstn (Z.to_nat n) buf') ->
  generic_run buf n = generic_run buf' n.
Proof.
  intros H H' P. rewrite !generic_run_spec by assumption.
  now rewrite (sum_from_permutation _ _ P),
    (sumsq_from_permutation _ _ P).
Qed.

(** X3: where addition is associative and commutative, no kernel depends
    on the order of the samples: two buffers whose first [num_points]
    floats are the same up to order give the same two outputs. *)
Theorem outputs_do_not_depend_on_sample_order :
  forall (L : SumLaws ops) (buf buf' : buffer F) (n : Z),
    0 <= n < UINT_MODULUS ->
    (Z.to_nat n <= length buf)%nat -> (Z.to_nat n <= length buf')%nat ->
    Permutation (firstn (Z.to_nat n) buf) (firstn (Z.to_nat n) buf') ->
    volk_32f_stddev_and_mean_32f_x2_generic buf n
      = volk_32f_stddev_and_mean_32f_x2_generic buf' n
    /\ volk_32f_stddev_and_mean_32f_x2_a_sse buf n
      = volk_32f_stddev_and_mean_32f_x2_a_sse buf' n
    /\ volk_32f_stddev_and_mean_32f_x2_a_sse4_1 buf n
      = volk_32f_stddev_and_mean_32f_x2_a_sse4_1 buf' n
    /\ volk_32f_stddev_and_mean_32f_x2_a_avx buf n
      = volk_32f_stddev_and_mean_32f_x2_a_avx buf' n
    /\ volk_32f_stddev_and_mean_32f_x2_u_avx buf n
      = volk_32f_stddev_and_mean_32f_x2_u_avx buf' n.
Proof.
  intros L buf buf' n Hn H H' P.
  pose proof (generic_run_permutation buf buf' n H H' P) as G.
  repeat split; apply kernel_ext.
  - exact G.
  - now rewrite !a_sse_run_exact.
  - now rewrite !a_sse4_1_run_exact.
  - unfold a_avx_run. now rewrite !(avx_run_exact _ n).
  - unfold u_avx_run. now rewrite !(avx_run_exact _ n).
Qed.

End Reordering.

Lemma outputs_do_not_depend_on_sample_order_witness :
  volk_32f_stddev_and_mean_32f_x2_a_sse (ops := z_ops) [3; 1; 4; 1; 5; 9] 5
  = volk_32f_stddev_and_mean_32f_x2_a_sse [5; 4; 3; 1; 1; 2] 5.
Proof.
  apply (outputs_do_not_depend_on_sample_order (ops := z_ops) z_sum_laws
           [3; 1; 4; 1; 5; 9] [5; 4; 3; 1; 1; 2] 5);
    [unfold UINT_MODULUS; lia | simpl; lia | simpl; lia |].
  simpl.
  apply (perm_trans (l' := [5; 3; 1; 4; 1])).
  - change [5; 3; 1; 4; 1] with ([5] ++ [3; 1; 4; 1]).
    change [3; 1; 4; 1; 5] with ([3; 1; 4; 1] ++ [5]).
    apply Permutation_app_comm.
  - apply perm_skip.
    apply (perm_trans (l' := [3; 4; 1; 1])).
    + apply perm_skip. apply perm_swap.
    + apply perm_swap.
Defined.

(** ** The SSE kernel below one group *)

(** X4: in binary32, for [0 < num_points < 4] the vector loop of the SSE
    kernel does not run and the kernel returns what the generic kernel
    returns, pattern for pattern. *)
Theorem sse_below_one_group_is_generic :
  forall (buf : buffer Z) (n : Z),
    0 < n < 4 ->
    a_sse_vector_loop (ops := B32.b32_ops) buf n = Some vector_init128
    /\ volk_32f_stddev_and_mean_32f_x2_a_sse (ops := B32.b32_ops) buf n
       = volk_32f_stddev_and_mean_32f_x2_generic (ops := B32.b32_ops) buf n.
Proof.
  intros buf n Hn.
  destruct (two_phase_small (a_sse_body (ops := B32.b32_ops))
              (reduce128 (ops := B32.b32_ops))
              (vector_init128 (ops := B32.b32_ops)) 4 buf n) as (Hv & _);
    [lia|].
  split; [exact Hv|].
  apply kernel_ext. rewrite a_sse_two_phase.
  apply two_phase_small_generic;
    [exact (reduce128_init (ops := B32.b32_ops) b32_add_zero_zero) | lia].
Qed.

Lemma sse_below_one_group_is_generic_witness :
  volk_32f_stddev_and_mean_32f_x2_a_sse (ops := B32.b32_ops)
    [Consts.f0_1; Consts.f2_5; Consts.f5_0] 3
  = volk_32f_stddev_and_mean_32f_x2_generic (ops := B32.b32_ops)
      [Consts.f0_1; Consts.f2_5; Consts.f5_0] 3.
Proof.
  apply (sse_below_one_group_is_generic
           [Consts.f0_1; Consts.f2_5; Consts.f5_0] 3).
  lia.
Defined.

(** ** What each lane of the vector accumulators holds *)

Section Lanes.
Context {F : Type} {ops : FloatOps F}.

Lemma iterate_snoc {S : Type} (k : nat) (body : S -> option S) (s : S) :
  iterate (Datatypes.S k) body s = (s' <- iterate k body s ;; body s').
Proof.
  revert s; induction k as [|k IH]; intros s.
  - simpl. now destruct (body s).
  - change (iterate (Datatypes.S (Datatypes.S k)) body s)
      with (s1 <- body s ;; iterate (Datatypes.S k) body s1).
    simpl iterate at 2. destruct (body s) as [s1|]; simpl; [|reflexivity].
    apply IH.
Qed.

Lemma strided_snoc (buf : buffer F) (o st k : nat) :
  strided buf o st (S k)
  = strided buf o st k ++ [nth (o + k * st) buf f_zero].
Proof. unfold strided. now rewrite seq_S, map_app. Qed.

Lemma strided_dots_snoc (buf : buffer F) (o st k : nat) :
  strided_dots buf o st (S k)
  = strided_dots buf o st k
    ++ [dot4 (block4 buf (o + k * st)) (block4 buf (o + k * st))].
Proof. unfold strided_dots. now rewrite seq_S, map_app. Qed.

Lemma sum_from_snoc (a x : F) (xs : list F) :
  sum_from a (xs ++ [x]) = f_add (sum_from a xs) x.
Proof. unfold sum_from. now rewrite fold_left_app. Qed.

Lemma sumsq_from_snoc (a x : F) (xs : list F) :
  sumsq_from a (xs ++ [x]) = f_add (sumsq_from a xs) (f_mul x x).
Proof. unfold sumsq_from. now rewrite fold_left_app. Qed.

Lemma nth_after_skipn (buf l : list F) (p i : nat) (d : F) :
  skipn p buf = l -> nth (p + i) buf d = nth i l d.
Proof.
  intros <-. revert buf; induction p as [|p IH]; intros buf; simpl.
  - reflexivity.
  - destruct buf as [|x buf]; simpl; [now destruct i | apply IH].
Qed.

Lemma load_ps_nth (buf : buffer F) (p : nat) (v : m128 F) (d : F) :
  _mm_load_ps buf p = Some v ->
  v = mk128 (nth p buf d) (nth (p + 1) buf d)
            (nth (p + 2) buf d) (nth (p + 3) buf d).
Proof.
  intros H. destruct (load_ps_inv _ _ _ H) as (r & E & _).
  rewrite <- (Nat.add_0_r p) at 1.
  rewrite !(nth_after_skipn _ _ _ _ d E).
  now destruct v.
Qed.

Lemma loadu256_nth (buf : buffer F) (p : nat) (v : m256 F) (d : F) :
  _mm256_loadu_ps buf p = Some v ->
  v = mk256 (mk128 (nth p buf d) (nth (p + 1) buf d)
                   (nth (p + 2) buf d) (nth (p + 3) buf d))
            (mk128 (nth (p + 4) buf d) (nth (p + 4 + 1) buf d)
                   (nth (p + 4 + 2) buf d) (nth (p + 4 + 3) buf d)).
Proof.
  unfold _mm256_loadu_ps. intros H.
  destruct (_mm_load_ps buf p) as [l|] eqn:El; simpl in H; [|discriminate].
  destruct (_mm_load_ps buf (p + 4)) as [h|] eqn:Eh; simpl in H;
    [|discriminate].
  injection H as <-.
  now rewrite (load_ps_nth _ _ _ d El), (load_ps_nth _ _ _ d Eh).
Qed.

Lemma nth_index (buf : list F) (i j : nat) (d : F) :
  i = j -> nth i buf d = nth j buf d.
Proof. now intros ->. Qed.

Lemma a_sse_lanes_after (buf : buffer F) (k : nat)
      (s : vector_state (m128 F)) :
  iterate k (a_sse_body buf) vector_init128 = Some s ->
  vPtr s = (4 * k)%nat
  /\ accumulator s
     = mk128 (sum_from f_zero (strided buf 0 4 k))
             (sum_from f_zero (strided buf 1 4 k))
             (sum_from f_zero (strided buf 2 4 k))
             (sum_from f_zero (strided buf 3 4 k))
  /\ squareAccumulator s
     = mk128 (sumsq_from f_zero (strided buf 0 4 k))
             (sumsq_from f_zero (strided buf 1 4 k))
             (sumsq_from f_zero (strided buf 2 4 k))
             (sumsq_from f_zero (strided buf 3 4 k)).
Proof.
  revert s; induction k as [|k IH]; intros s H.
  - injection H as <-. repeat split.
  - rewrite iterate_snoc in H.
    destruct (iterate k (a_sse_body buf) vector_init128) as [s0|];
      simpl in H; [|discriminate].
    destruct (IH s0 eq_refl) as (Hp & Ha & Hq).
    unfold a_sse_body in H.
    destruct (_mm_load_ps buf (vPtr s0)) as [v|] eqn:E; simpl in H;
      [|discriminate].
    injection H as <-. cbn [vPtr accumulator squareAccumulator].
    rewrite (load_ps_nth _ _ _ f_zero E), Ha, Hq, Hp.
    rewrite !strided_snoc, !sum_from_snoc, !sumsq_from_snoc.
    unfold _mm_add_ps, _mm_mul_ps, map2_128;
      cbn [v0 v1 v2 v3].
    split; [lia|].
    split; repeat (f_equal; try (apply nth_index; lia)).
Qed.

(** X5: after its vector loop, lane [j] of the SSE kernel's [accumulator]
    is the in-order sum, started from 0, of the floats at [j], [j + 4],
    [j + 8], ..., and lane [j] of its [squareAccumulator] is the in-order sum
    of their squares; this is the order in which the kernel rounds. *)
Theorem sse_lanes_are_strided_sums :
  forall (buf : buffer F) (n : Z) (vs : vector_state (m128 F)),
    a_sse_vector_loop buf n = Some vs ->
    let k := Z.to_nat (n / 4) in
    vPtr vs = (4 * k)%nat
    /\ accumulator vs
       = mk128 (sum_from f_zero (strided buf 0 4 k))
               (sum_from f_zero (strided buf 1 4 k))
               (sum_from f_zero (strided buf 2 4 k))
               (sum_from f_zero (strided buf 3 4 k))
    /\ squareAccumulator vs
       = mk128 (sumsq_from f_zero (strided buf 0 4 k))
               (sumsq_from f_zero (strided buf 1 4 k))
               (sumsq_from f_zero (strided buf 2 4 k))
               (sumsq_from f_zero (strided buf 3 4 k)).
Proof.
  intros buf n vs H k. apply a_sse_lanes_after.
  unfold a_sse_vector_loop, for_count, quarterPoints, uint_div in H.
  now rewrite Z.sub_0_r in H.
Qed.

Lemma a_sse4_1_lanes_after `{!OrZeroLaws ops} (buf : buffer F) (k : nat)
      (s : vector_state (m128 F)) :
  iterate k (a_sse4_1_body buf) vector_init128 = Some s ->
  vPtr s = (16 * k)%nat
  /\ accumulator s
     = mk128 (sum_from f_zero (strided buf 0 4 (4 * k)))
             (sum_from f_zero (strided buf 1 4 (4 * k)))
             (sum_from f_zero (strided buf 2 4 (4 * k)))
             (sum_from f_zero (strided buf 3 4 (4 * k)))
  /\ squareAccumulator s
     = mk128 (sum_from f_zero (strided_dots buf 0 4 k))
             (sum_from f_zero (strided_dots buf 1 4 k))
             (sum_from f_zero (strided_dots buf 2 4 k))
             (sum_from f_zero (strided_dots buf 3 4 k)).
Proof.
  revert s; induction k as [|k IH]; intros s H.
  - injection H as <-. repeat split.
  - rewrite iterate_snoc in H.
    destruct (iterate k (a_sse4_1_body buf) vector_init128) as [s0|];
      simpl in H; [|discriminate].
    destruct (IH s0 eq_refl) as (Hp & Ha & Hq).
    unfold a_sse4_1_body in H.
    destruct (_mm_load_ps buf (vPtr s0)) as [a1|] eqn:E1; simpl in H;
      [|discriminate].
    destruct (_mm_load_ps buf (vPtr s0 + 4)) as [a2|] eqn:E2; simpl in H;
      [|discriminate].
    destruct (_mm_load_ps buf (vPtr s0 + 4 + 4)) as [a3|] eqn:E3;
      simpl in H; [|discriminate].
    destruct (_mm_load_ps buf (vPtr s0 + 4 + 4 + 4)) as [a4|] eqn:E4;
      simpl in H; [|discriminate].
    injection H as <-. cbn [vPtr accumulator squareAccumulator].
    change (_mm_or_ps (_mm_or_ps ?c1 ?c2) (_mm_or_ps ?c3 ?c4))
      with (or_combine c1 c2 c3 c4).
    rewrite or_combine_lanes.
    rewrite (load_ps_nth _ _ _ f_zero E1), (load_ps_nth _ _ _ f_zero E2),
      (load_ps_nth _ _ _ f_zero E3), (load_ps_nth _ _ _ f_zero E4),
      Ha, Hq, Hp.
    replace (4 * S k)%nat with (S (S (S (S (4 * k))))) by lia.
    rewrite !strided_snoc, !strided_dots_snoc, !sum_from_snoc.
    unfold _mm_add_ps, map2_128, block4; cbn [v0 v1 v2 v3].
    split; [lia|].
    split; repeat (f_equal; try (apply nth_index; lia)).
Qed.

(** X6: after its vector loop, lane [j] of the SSE4.1 kernel's
    [accumulator] is the in-order sum of the floats at [j], [j + 4],
    [j + 8], ..., and lane [j] of its [squareAccumulator] is the in-order sum
    of the dot products of the groups of four numbered [j], [j + 4],
    [j + 8], ... (where or-ing with the zero pattern is the identity, as it
    is on binary32 patterns). *)
Theorem sse4_1_lanes_are_strided_sums :
  forall (O : OrZeroLaws ops) (buf : buffer F) (n : Z)
         (vs : vector_state (m128 F)),
    a_sse4_1_vector_loop buf n = Some vs ->
    let k := Z.to_nat (n / 16) in
    vPtr vs = (16 * k)%nat
    /\ accumulator vs
       = mk128 (sum_from f_zero (strided buf 0 4 (4 * k)))
               (sum_from f_zero (strided buf 1 4 (4 * k)))
               (sum_from f_zero (strided buf 2 4 (4 * k)))
               (sum_from f_zero (strided buf 3 4 (4 * k)))
    /\ squareAccumulator vs
       = mk128 (sum_from f_zero (strided_dots buf 0 4 k))
               (sum_from f_zero (strided_dots buf 1 4 k))
               (sum_from f_zero (strided_dots buf 2 4 k))
               (sum_from f_zero (strided_dots buf 3 4 k)).
Proof.
  intros O buf n vs H k. apply a_sse4_1_lanes_after.
  unfold a_sse4_1_vector_loop, for_count, sixteenthPoints, uint_div in H.
  now rewrite Z.sub_0_r in H.
Qed.

Lemma avx_lanes_after `{!OrZeroLaws ops} (buf : buffer F) (k : nat)
      (s : vector_state (m256 F)) :
  iterate k (avx_body _mm256_loadu_ps buf) vector_init256 = Some s ->
  vPtr s = (32 * k)%nat
  /\ accumulator s
     = mk256 (mk128 (sum_from f_zero (strided buf 0 8 (4 * k)))
                    (sum_from f_zero (strided buf 1 8 (4 * k)))
                    (sum_from f_zero (strided buf 2 8 (4 * k)))
                    (sum_from f_zero (strided buf 3 8 (4 * k))))
             (mk128 (sum_from f_zero (strided buf 4 8 (4 * k)))
                    (sum_from f_zero (strided buf 5 8 (4 * k)))
                    (sum_from f_zero (strided buf 6 8 (4 * k)))
                    (sum_from f_zero (strided buf 7 8 (4 * k))))
  /\ squareAccumulator s
     = mk256 (mk128 (sum_from f_zero (strided_dots buf 0 8 k))
                    (sum_from f_zero (strided_dots buf 2 8 k))
                    (sum_from f_zero (strided_dots buf 4 8 k))
                    (sum_from f_zero (strided_dots buf 6 8 k)))
             (mk128 (sum_from f_zero (strided_dots buf 1 8 k))
                    (sum_from f_zero (strided_dots buf 3 8 k))
                    (sum_from f_zero (strided_dots buf 5 8 k))
                    (sum_from f_zero (strided_dots buf 7 8 k))).
Proof.
  revert s; induction k as [|k IH]; intros s H.
  - injection H as <-. repeat split.
  - rewrite iterate_snoc in H.
    destruct (iterate k (avx_body _mm256_loadu_ps buf) vector_init256)
      as [s0|]; simpl in H; [|discriminate].
    destruct (IH s0 eq_refl) as (Hp & Ha & Hq).
    unfold avx_body in H.
    destruct (_mm256_loadu_ps buf (vPtr s0)) as [a1|] eqn:E1; simpl in H;
      [|discriminate].
    destruct (_mm256_loadu_ps buf (vPtr s0 + 8)) as [a2|] eqn:E2;
      simpl in H; [|discriminate].
    destruct (_mm256_loadu_ps buf (vPtr s0 + 8 + 8)) as [a3|] eqn:E3;
      simpl in H; [|discriminate].
    destruct (_mm256_loadu_ps buf (vPtr s0 + 8 + 8 + 8)) as [a4|] eqn:E4;
      simpl in H; [|discriminate].
    injection H as <-. cbn [vPtr accumulator squareAccumulator].
    unfold _mm256_or_ps, _mm256_dp_ps; cbn [lo128 hi128].
    change (_mm_or_ps (_mm_or_ps ?c1 ?c2) (_mm_or_ps ?c3 ?c4))
      with (or_combine c1 c2 c3 c4).
    rewrite !or_combine_lanes.
    rewrite (loadu256_nth _ _ _ f_zero E1), (loadu256_nth _ _ _ f_zero E2),
      (loadu256_nth _ _ _ f_zero E3), (loadu256_nth _ _ _ f_zero E4),
      Ha, Hq, Hp.
    replace (4 * S k)%nat with (S (S (S (S (4 * k))))) by lia.
    rewrite !strided_snoc, !strided_dots_snoc, !sum_from_snoc.
    unfold _mm256_add_ps, _mm_add_ps, map2_128, block4;
      cbn [v0 v1 v2 v3 lo128 hi128].
    split; [lia|].
    split; repeat (f_equal; try (apply nth_index; lia)).
Qed.

(** X7: after the vector loop of an AVX kernel, lane [j] of [accumulator]
    (lanes 0..7) is the in-order sum of the floats at [j], [j + 8],
    [j + 16], ...; lane [j] of the low group of [squareAccumulator] is the
    in-order sum of the dot products of the groups of four numbered [2j],
    [2j + 8], ..., and lane [j] of its high group that of the groups
    numbered [2j + 1], [2j + 9], ... *)
Theorem avx_lanes_are_strided_sums :
  forall (O : OrZeroLaws ops) (buf : buffer F) (n : Z)
         (vs : vector_state (m256 F)),
    (avx_vector_loop _mm256_load_ps buf n = Some vs
     \/ avx_vector_loop _mm256_loadu_ps buf n = Some vs) ->
    let k := Z.to_nat (n / 32) in
    vPtr vs = (32 * k)%nat
    /\ accumulator vs
       = mk256 (mk128 (sum_from f_zero (strided buf 0 8 (4 * k)))
                      (sum_from f_zero (strided buf 1 8 (4 * k)))
                      (sum_from f_zero (strided buf 2 8 (4 * k)))
                      (sum_from f_zero (strided buf 3 8 (4 * k))))
               (mk128 (sum_from f_zero (strided buf 4 8 (4 * k)))
                      (sum_from f_zero (strided buf 5 8 (4 * k)))
                      (sum_from f_zero (strided buf 6 8 (4 * k)))
                      (sum_from f_zero (strided buf 7 8 (4 * k))))
    /\ squareAccumulator vs
       = mk256 (mk128 (sum_from f_zero (strided_dots buf 0 8 k))
                      (sum_from f_zero (strided_dots buf 2 8 k))
                      (sum_from f_zero (strided_dots buf 4 8 k))
                      (sum_from f_zero (strided_dots buf 6 8 k)))
               (mk128 (sum_from f_zero (strided_dots buf 1 8 k))
                      (sum_from f_zero (strided_dots buf 3 8 k))
                      (sum_from f_zero (strided_dots buf 5 8 k))
                      (sum_from f_zero (strided_dots buf 7 8 k))).
Proof.
  intros O buf n vs H k. apply avx_lanes_after.
  assert (H' : avx_vector_loop _mm256_loadu_ps buf n = Some vs)
    by (destruct H as [H|H]; exact H).
  unfold avx_vector_loop, for_count, thirtySecondthPoints, uint_div in H'.
  now rewrite Z.sub_0_r in H'.
Qed.

End Lanes.

(** ** Kernels over two related arithmetics *)

Section Parametricity.
Context {F1 F2 : Type} {ops1 : FloatOps F1} {ops2 : FloatOps F2}.
Variable R : F1 -> F2 -> Prop.
Hypothesis HR : ops_related R ops1 ops2.

Lemma rel_obind {A1 A2 B1 B2 : Type} (RA : A1 -> A2 -> Prop)
      (RB : B1 -> B2 -> Prop) (o1 : option A1) (o2 : option A2)
      (k1 : A1 -> option B1) (k2 : A2 -> option B2) :
  rel_option RA o1 o2 ->
  (forall a1 a2, RA a1 a2 -> rel_option RB (k1 a1) (k2 a2)) ->
  rel_option RB (obind o1 k1) (obind o2 k2).
Proof.
  destruct o1 as [a1|], o2 as [a2|]; simpl; intros H Hk;
    try contradiction; [now apply Hk | exact I].
Qed.

Lemma rel_iterate {S1 S2 : Type} (RS : S1 -> S2 -> Prop)
      (body1 : S1 -> option S1) (body2 : S2 -> option S2) :
  (forall s1 s2, RS s1 s2 -> rel_option RS (body1 s1) (body2 s2)) ->
  forall k s1 s2, RS s1 s2 ->
                  rel_option RS (iterate k body1 s1) (iterate k body2 s2).
Proof.
  intros Hb k; induction k as [|k IH]; intros s1 s2 Hs; simpl.
  - exact Hs.
  - apply (rel_obind RS RS); [now apply Hb | exact IH].
Qed.

Lemma Forall2_skipn (p : nat) (b1 : list F1) (b2 : list F2) :
  Forall2 R b1 b2 -> Forall2 R (skipn p b1) (skipn p b2).
Proof.
  revert b1 b2; induction p as [|p IH]; intros b1 b2 H; simpl;
    [exact H|].
  destruct H; [constructor | now apply IH].
Qed.

Lemma rel_deref (b1 : buffer F1) (b2 : buffer F2) (p : nat) :
  Forall2 R b1 b2 -> rel_option R (deref b1 p) (deref b2 p).
Proof.
  unfold deref. intros H; revert p.
  induction H as [|x1 x2 l1 l2 Hx _ IH]; intros [|p]; simpl;
    try exact I; [exact Hx | apply IH].
Qed.

Lemma rel_load_ps (b1 : buffer F1) (b2 : buffer F2) (p : nat) :
  Forall2 R b1 b2 ->
  rel_option (rel128 R) (_mm_load_ps b1 p) (_mm_load_ps b2 p).
Proof.
  intros H. apply (Forall2_skipn p) in H. unfold _mm_load_ps.
  destruct H as [|a1 a2 ? ? Ha H]; [exact I|].
  destruct H as [|b1' b2' ? ? Hb H]; [exact I|].
  destruct H as [|c1 c2 ? ? Hc H]; [exact I|].
  destruct H as [|d1 d2 ? ? Hd H]; [exact I|].
  simpl. repeat split; assumption.
Qed.

Lemma rel_loadu256 (b1 : buffer F1) (b2 : buffer F2) (p : nat) :
  Forall2 R b1 b2 ->
  rel_option (rel256 R) (_mm256_loadu_ps b1 p) (_mm256_loadu_ps b2 p).
Proof.
  intros H. unfold _mm256_loadu_ps.
  apply (rel_obind (rel128 R) (rel256 R)); [now apply rel_load_ps|].
  intros l1 l2 Hl.
  apply (rel_obind (rel128 R) (rel256 R)); [now apply rel_load_ps|].
  intros h1 h2 Hh. simpl. now split.
Qed.

Lemma rel_map2_128 (op1 : F1 -> F1 -> F1) (op2 : F2 -> F2 -> F2) :
  (forall x1 x2 y1 y2, R x1 x2 -> R y1 y2 -> R (op1 x1 y1) (op2 x2 y2)) ->
  forall a1 a2 b1 b2,
    rel128 R a1 a2 -> rel128 R b1 b2 ->
    rel128 R (map2_128 op1 a1 b1) (map2_128 op2 a2 b2).
Proof.
  intros Hop a1 a2 b1 b2 (A0 & A1 & A2 & A3) (B0 & B1 & B2 & B3).
  unfold map2_128, rel128; simpl. repeat split; now apply Hop.
Qed.

Lemma rel_add_ps (a1 : m128 F1) (a2 : m128 F2) (b1 : m128 F1)
      (b2 : m128 F2) :
  rel128 R a1 a2 -> rel128 R b1 b2 ->
  rel128 R (_mm_add_ps a1 b1) (_mm_add_ps a2 b2).
Proof. apply rel_map2_128, (rel_add R _ _ HR). Qed.

Lemma rel_mul_ps (a1 : m128 F1) (a2 : m128 F2) (b1 : m128 F1)
      (b2 : m128 F2) :
  rel128 R a1 a2 -> rel128 R b1 b2 ->
  rel128 R (_mm_mul_ps a1 b1) (_mm_mul_ps a2 b2).
Proof. apply rel_map2_128, (rel_mul R _ _ HR). Qed.

Lemma rel_or_ps (a1 : m128 F1) (a2 : m128 F2) (b1 : m128 F1)
      (b2 : m128 F2) :
  rel128 R a1 a2 -> rel128 R b1 b2 ->
  rel128 R (_mm_or_ps a1 b1) (_mm_or_ps a2 b2).
Proof. apply rel_map2_128, (rel_or R _ _ HR). Qed.

Lemma rel_dp_ps (a1 : m128 F1) (a2 : m128 F2) (b1 : m128 F1)
      (b2 : m128 F2) (imm8 : Z) :
  rel128 R a1 a2 -> rel128 R b1 b2 ->
  rel128 R (_mm_dp_ps a1 b1 imm8) (_mm_dp_ps a2 b2 imm8).
Proof.
  intros (A0 & A1 & A2 & A3) (B0 & B1 & B2 & B3).
  pose proof (rel_zero R _ _ HR) as Z0.
  pose proof (rel_add R _ _ HR) as Hadd.
  pose proof (rel_mul R _ _ HR) as Hmul.
  assert (P : forall j x1 x2 y1 y2, R x1 x2 -> R y1 y2 ->
                R (if Z.testbit imm8 (4 + j) then f_mul x1 y1 else f_zero)
                  (if Z.testbit imm8 (4 + j) then f_mul x2 y2 else f_zero)).
  { intros j x1 x2 y1 y2 Hx Hy. destruct (Z.testbit imm8 (4 + j)); auto. }
  unfold _mm_dp_ps, rel128; cbn [v0 v1 v2 v3].
  repeat split;
    match goal with
    | |- R (if ?c then _ else _) _ => destruct c; auto
    end.
Qed.

Lemma rel_zero128 : rel128 R _mm_setzero_ps _mm_setzero_ps.
Proof. pose proof (rel_zero R _ _ HR). repeat split; assumption. Qed.

Lemma rel_add256 (a1 : m256 F1) (a2 : m256 F2) (b1 : m256 F1)
      (b2 : m256 F2) :
  rel256 R a1 a2 -> rel256 R b1 b2 ->
  rel256 R (_mm256_add_ps a1 b1) (_mm256_add_ps a2 b2).
Proof. intros (A & A') (B & B'). split; now apply rel_add_ps. Qed.

Lemma rel_or256 (a1 : m256 F1) (a2 : m256 F2) (b1 : m256 F1)
      (b2 : m256 F2) :
  rel256 R a1 a2 -> rel256 R b1 b2 ->
  rel256 R (_mm256_or_ps a1 b1) (_mm256_or_ps a2 b2).
Proof. intros (A & A') (B & B'). split; now apply rel_or_ps. Qed.

Lemma rel_dp256 (a1 : m256 F1) (a2 : m256 F2) (b1 : m256 F1)
      (b2 : m256 F2) (imm8 : Z) :
  rel256 R a1 a2 -> rel256 R b1 b2 ->
  rel256 R (_mm256_dp_ps a1 b1 imm8) (_mm256_dp_ps a2 b2 imm8).
Proof. intros (A & A') (B & B'). split; now apply rel_dp_ps. Qed.

Lemma rel_scalar_body (b1 : buffer F1) (b2 : buffer F2)
      (s1 : scalar_state F1) (s2 : scalar_state F2) :
  Forall2 R b1 b2 -> rel_scalar R s1 s2 ->
  rel_option (rel_scalar R) (scalar_body b1 s1) (scalar_body b2 s2).
Proof.
  intros Hb (Hp & Hr & Hm). unfold scalar_body. rewrite Hp.
  apply (rel_obind R (rel_scalar R)); [now apply rel_deref|].
  intros x1 x2 Hx. simpl. repeat split; cbn [aPtr returnValue newMean].
  - apply (rel_add R _ _ HR); [assumption|].
    now apply (rel_mul R _ _ HR).
  - now apply (rel_add R _ _ HR).
Qed.

Lemma rel_a_sse_body (b1 : buffer F1) (b2 : buffer F2)
      (s1 : vector_state (m128 F1)) (s2 : vector_state (m128 F2)) :
  Forall2 R b1 b2 -> rel_vector (rel128 R) s1 s2 ->
  rel_option (rel_vector (rel128 R)) (a_sse_body b1 s1) (a_sse_body b2 s2).
Proof.
  intros Hb (Hp & Ha & Hq). unfold a_sse_body. rewrite Hp.
  apply (rel_obind (rel128 R) (rel_vector (rel128 R)));
    [now apply rel_load_ps|].
  intros x1 x2 Hx. simpl. split; [reflexivity|].
  cbn [accumulator squareAccumulator].
  split; auto using rel_add_ps, rel_mul_ps.
Qed.

Lemma rel_a_sse4_1_body (b1 : buffer F1) (b2 : buffer F2)
      (s1 : vector_state (m128 F1)) (s2 : vector_state (m128 F2)) :
  Forall2 R b1 b2 -> rel_vector (rel128 R) s1 s2 ->
  rel_option (rel_vector (rel128 R))
             (a_sse4_1_body b1 s1) (a_sse4_1_body b2 s2).
Proof.
  intros Hb (Hp & Ha & Hq). unfold a_sse4_1_body. rewrite Hp.
  apply (rel_obind (rel128 R) (rel_vector (rel128 R)));
    [now apply rel_load_ps|]. intros x1 x2 Hx.
  apply (rel_obind (rel128 R) (rel_vector (rel128 R)));
    [now apply rel_load_ps|]. intros y1 y2 Hy.
  apply (rel_obind (rel128 R) (rel_vector (rel128 R)));
    [now apply rel_load_ps|]. intros z1 z2 Hz.
  apply (rel_obind (rel128 R) (rel_vector (rel128 R)));
    [now apply rel_load_ps|]. intros w1 w2 Hw.
  simpl. split; [reflexivity|].
  cbn [accumulator squareAccumulator].
  split; auto 20 using rel_add_ps, rel_or_ps, rel_dp_ps.
Qed.

Lemma rel_avx_body (b1 : buffer F1) (b2 : buffer F2)
      (s1 : vector_state (m256 F1)) (s2 : vector_state (m256 F2)) :
  Forall2 R b1 b2 -> rel_vector (rel256 R) s1 s2 ->
  rel_option (rel_vector (rel256 R))
             (avx_body _mm256_loadu_ps b1 s1)
             (avx_body _mm256_loadu_ps b2 s2).
Proof.
  intros Hb (Hp & Ha & Hq). unfold avx_body. rewrite Hp.
  apply (rel_obind (rel256 R) (rel_vector (rel256 R)));
    [now apply rel_loadu256|]. intros x1 x2 Hx.
  apply (rel_obind (rel256 R) (rel_vector (rel256 R)));
    [now apply rel_loadu256|]. intros y1 y2 Hy.
  apply (rel_obind (rel256 R) (rel_vector (rel256 R)));
    [now apply rel_loadu256|]. intros z1 z2 Hz.
  apply (rel_obind (rel256 R) (rel_vector (rel256 R)));
    [now apply rel_loadu256|]. intros w1 w2 Hw.
  simpl. split; [reflexivity|].
  cbn [accumulator squareAccumulator].
  split; auto 20 using rel_add256, rel_or256, rel_dp256.
Qed.

Lemma rel_sum_buffer (l1 : list F1) (l2 : list F2) :
  Forall2 R l1 l2 -> R (sum_buffer l1) (sum_buffer l2).
Proof.
  intros H. destruct H as [|x1 x2 r1 r2 Hx Hr]; simpl.
  - apply (rel_zero R _ _ HR).
  - revert x1 x2 Hx. induction Hr as [|y1 y2 t1 t2 Hy _ IH];
      intros x1 x2 Hx; simpl; [exact Hx|].
    apply IH. now apply (rel_add R _ _ HR).
Qed.

Lemma rel_reduce128 (s1 : vector_state (m128 F1))
      (s2 : vector_state (m128 F2)) :
  rel_vector (rel128 R) s1 s2 -> rel_scalar R (reduce128 s1) (reduce128 s2).
Proof.
  intros (Hp & (A0 & A1 & A2 & A3) & (Q0 & Q1 & Q2 & Q3)).
  unfold reduce128. split; [exact Hp|].
  split; apply rel_sum_buffer; unfold _mm_store_ps;
    repeat constructor; assumption.
Qed.

Lemma rel_reduce256 (s1 : vector_state (m256 F1))
      (s2 : vector_state (m256 F2)) :
  rel_vector (rel256 R) s1 s2 -> rel_scalar R (reduce256 s1) (reduce256 s2).
Proof.
  intros (Hp & ((A0 & A1 & A2 & A3) & (A4 & A5 & A6 & A7))
             & ((Q0 & Q1 & Q2 & Q3) & (Q4 & Q5 & Q6 & Q7))).
  unfold reduce256. split; [exact Hp|].
  split; apply rel_sum_buffer; unfold _mm256_store_ps, _mm_store_ps;
    simpl; repeat constructor; assumption.
Qed.

Lemma rel_two_phase {V1 V2 : Type} (RV : V1 -> V2 -> Prop)
      (body1 : buffer F1 -> vector_state V1 -> option (vector_state V1))
      (body2 : buffer F2 -> vector_state V2 -> option (vector_state V2))
      (reduce1 : vector_state V1 -> scalar_state F1)
      (reduce2 : vector_state V2 -> scalar_state F2)
      (init1 : vector_state V1) (init2 : vector_state V2) (d : Z) :
  (forall b1 b2 s1 s2, Forall2 R b1 b2 -> rel_vector RV s1 s2 ->
                       rel_option (rel_vector RV) (body1 b1 s1) (body2 b2 s2)) ->
  (forall s1 s2, rel_vector RV s1 s2 ->
                 rel_scalar R (reduce1 s1) (reduce2 s2)) ->
  rel_vector RV init1 init2 ->
  forall b1 b2 n,
    Forall2 R b1 b2 ->
    rel_option (rel_scalar R) (two_phase body1 reduce1 init1 d b1 n)
               (two_phase body2 reduce2 init2 d b2 n).
Proof.
  intros Hbody Hred Hinit b1 b2 n Hb. unfold two_phase, vector_phase.
  apply (rel_obind (rel_vector RV) (rel_scalar R)).
  - apply rel_iterate; [|exact Hinit]. intros s1 s2. now apply Hbody.
  - intros vs1 vs2 Hvs. apply rel_iterate; [|now apply Hred].
    intros s1 s2. now apply rel_scalar_body.
Qed.

Lemma rel_kernel (run1 : buffer F1 -> Z -> option (scalar_state F1))
      (run2 : buffer F2 -> Z -> option (scalar_state F2))
      (b1 : buffer F1) (b2 : buffer F2) (n : Z) :
  rel_option (rel_scalar R) (run1 b1 n) (run2 b2 n) ->
  rel_option (rel_outputs R) (kernel run1 b1 n) (kernel run2 b2 n).
Proof.
  intros H. unfold kernel. destruct (0 <? n).
  - apply (rel_obind (rel_scalar R) (rel_outputs R)); [exact H|].
    intros s1 s2 (_ & Hr & Hm). simpl. unfold finalize, rel_outputs; simpl.
    pose proof (rel_of_uint R _ _ HR n) as Hn.
    assert (Hmean : R (f_div (newMean s1) (f_of_uint n))
                      (f_div (newMean s2) (f_of_uint n)))
      by now apply (rel_div R _ _ HR).
    split; [|exact Hmean].
    apply (rel_sqrt R _ _ HR), (rel_sub R _ _ HR).
    + now apply (rel_div R _ _ HR).
    + now apply (rel_mul R _ _ HR).
  - simpl. split; apply (rel_zero R _ _ HR).
Qed.

Lemma rel_init128 : rel_vector (rel128 R) vector_init128 vector_init128.
Proof. repeat split; apply (rel_zero R _ _ HR). Qed.

Lemma rel_init256 : rel_vector (rel256 R) vector_init256 vector_init256.
Proof. repeat split; apply (rel_zero R _ _ HR). Qed.

(** Related buffers give related outputs, kernel by kernel. *)
Lemma kernels_related (b1 : buffer F1) (b2 : buffer F2) (n : Z) :
  Forall2 R b1 b2 ->
  rel_option (rel_outputs R)
             (volk_32f_stddev_and_mean_32f_x2_generic b1 n)
             (volk_32f_stddev_and_mean_32f_x2_generic b2 n)
  /\ rel_option (rel_outputs R)
                (volk_32f_stddev_and_mean_32f_x2_a_sse b1 n)
                (volk_32f_stddev_and_mean_32f_x2_a_sse b2 n)
  /\ rel_option (rel_outputs R)
                (volk_32f_stddev_and_mean_32f_x2_a_sse4_1 b1 n)
                (volk_32f_stddev_and_mean_32f_x2_a_sse4_1 b2 n)
  /\ rel_option (rel_outputs R)
                (volk_32f_stddev_and_mean_32f_x2_a_avx b1 n)
                (volk_32f_stddev_and_mean_32f_x2_a_avx b2 n)
  /\ rel_option (rel_outputs R)
                (volk_32f_stddev_and_mean_32f_x2_u_avx b1 n)
                (volk_32f_stddev_and_mean_32f_x2_u_avx b2 n).
Proof.
  intros Hb.
  assert (A : rel_option (rel_scalar R)
                (avx_run _mm256_loadu_ps b1 n) (avx_run _mm256_loadu_ps b2 n)).
  { apply (rel_two_phase (rel256 R) (avx_body _mm256_loadu_ps)
             (avx_body _mm256_loadu_ps) reduce256 reduce256
             vector_init256 vector_init256 32);
      [exact rel_avx_body | exact rel_reduce256 | exact rel_init256
       | exact Hb]. }
  split; [|split; [|split; [|split]]]; apply rel_kernel.
  - unfold generic_run. apply rel_iterate.
    + intros s1 s2. now apply rel_scalar_body.
    + repeat split; apply (rel_zero R _ _ HR).
  - apply (rel_two_phase (rel128 R) a_sse_body a_sse_body reduce128
             reduce128 vector_init128 vector_init128 4);
      [exact rel_a_sse_body | exact rel_reduce128 | exact rel_init128
       | exact Hb].
  - apply (rel_two_phase (rel128 R) a_sse4_1_body a_sse4_1_body reduce128
             reduce128 vector_init128 vector_init128 16);
      [exact rel_a_sse4_1_body | exact rel_reduce128 | exact rel_init128
       | exact Hb].
  - exact A.
  - exact A.
Qed.

End Parametricity.

(** ** NaN and infinite samples *)

#[export] Instance taint_or_zero : OrZeroLaws Taint.taint_ops.
Proof. split; intros x; simpl; [apply orb_false_r | reflexivity]. Defined.

#[export] Instance taint_sum_laws : SumLaws Taint.taint_ops.
Proof.
  split; [exact taint_or_zero | | | ]; simpl; intros.
  - apply orb_comm.
  - apply orb_assoc.
  - reflexivity.
Defined.

Section Poison.

Lemma taint_sum_from (l : list bool) (a : bool) :
  sum_from (ops := Taint.taint_ops) a l = a || existsb (fun b => b) l.
Proof.
  unfold sum_from. change (@f_add bool Taint.taint_ops) with orb.
  revert a; induction l as [|x l IH]; intros a; simpl.
  - now rewrite orb_false_r.
  - rewrite IH. now rewrite orb_assoc.
Qed.

Lemma taint_sumsq_from (l : list bool) (a : bool) :
  sumsq_from (ops := Taint.taint_ops) a l = a || existsb (fun b => b) l.
Proof.
  unfold sumsq_from.
  change (@f_add bool Taint.taint_ops) with orb.
  change (@f_mul bool Taint.taint_ops) with orb.
  revert a; induction l as [|x l IH]; intros a; simpl.
  - now rewrite orb_false_r.
  - rewrite IH. now destruct a, x.
Qed.

Lemma taint_generic (tb : buffer bool) (n : Z) :
  0 < n -> (Z.to_nat n <= length tb)%nat ->
  existsb (fun b => b) (firstn (Z.to_nat n) tb) = true ->
  volk_32f_stddev_and_mean_32f_x2_generic (ops := Taint.taint_ops) tb n
  = Some (mk_outputs true true).
Proof.
  intros Hn Hlen Hex.
  unfold volk_32f_stddev_and_mean_32f_x2_generic, kernel.
  rewrite (proj2 (Z.ltb_lt 0 n) Hn), generic_run_spec by assumption.
  rewrite taint_sum_from, taint_sumsq_from, Hex. reflexivity.
Qed.

Lemma taint_kernels (tb : buffer bool) (n : Z) :
  0 < n < UINT_MODULUS -> (Z.to_nat n <= length tb)%nat ->
  existsb (fun b => b) (firstn (Z.to_nat n) tb) = true ->
  volk_32f_stddev_and_mean_32f_x2_generic (ops := Taint.taint_ops) tb n
    = Some (mk_outputs true true)
  /\ volk_32f_stddev_and_mean_32f_x2_a_sse (ops := Taint.taint_ops) tb n
     = Some (mk_outputs true true)
  /\ volk_32f_stddev_and_mean_32f_x2_a_sse4_1 (ops := Taint.taint_ops) tb n
     = Some (mk_outputs true true)
  /\ volk_32f_stddev_and_mean_32f_x2_a_avx (ops := Taint.taint_ops) tb n
     = Some (mk_outputs true true)
  /\ volk_32f_stddev_and_mean_32f_x2_u_avx (ops := Taint.taint_ops) tb n
     = Some (mk_outputs true true).
Proof.
  intros Hn Hlen Hex.
  pose proof (taint_generic tb n (proj1 Hn) Hlen Hex) as G.
  split; [exact G|].
  repeat split; rewrite <- G; apply kernel_ext.
  - apply a_sse_run_exact; [lia | assumption].
  - apply a_sse4_1_run_exact; [lia | assumption].
  - apply (avx_run_exact tb n); [lia | assumption].
  - apply (avx_run_exact tb n); [lia | assumption].
Qed.

Lemma taint_buffer (P : Z -> bool) (buf : buffer Z) :
  Forall2 (Taint.taints P) buf (map P buf).
Proof.
  induction buf as [|x buf IH]; simpl; constructor; [|exact IH].
  intros H; exact H.
Qed.

Lemma taint_exists (P : Z -> bool) (buf : buffer Z) (k : nat) :
  existsb (fun b => b) (firstn k (map P buf)) = existsb P (firstn k buf).
Proof.
  rewrite firstn_map. induction (firstn k buf) as [|x l IH]; simpl;
    [reflexivity | now rewrite IH].
Qed.

Lemma both_outputs_of_rel (P : Z -> bool)
      (kern : buffer Z -> Z -> option (outputs Z))
      (buf : buffer Z) (n : Z) :
  rel_option (rel_outputs (Taint.taints P)) (kern buf n)
             (Some (mk_outputs true true)) ->
  both_outputs P kern buf n.
Proof.
  unfold both_outputs. destruct (kern buf n) as [o|]; simpl;
    [|contradiction].
  intros (Hs & Hm). exists o. repeat split; [apply Hs | apply Hm];
    reflexivity.
Qed.

(** Whatever property of patterns the five operations and the or carry
    from an argument to the result, the kernels carry from a sample to both
    outputs. *)
Lemma poison_reaches_outputs (P : Z -> bool) :
  ops_related (Taint.taints P) B32.b32_ops Taint.taint_ops ->
  forall (buf : buffer Z) (n : Z),
    0 < n < UINT_MODULUS -> (Z.to_nat n <= length buf)%nat ->
    existsb P (firstn (Z.to_nat n) buf) = true ->
    both_outputs P
      (volk_32f_stddev_and_mean_32f_x2_generic (ops := B32.b32_ops)) buf n
    /\ both_outputs P
         (volk_32f_stddev_and_mean_32f_x2_a_sse (ops := B32.b32_ops)) buf n
    /\ both_outputs P
         (volk_32f_stddev_and_mean_32f_x2_a_sse4_1 (ops := B32.b32_ops))
         buf n
    /\ both_outputs P
         (volk_32f_stddev_and_mean_32f_x2_a_avx (ops := B32.b32_ops)) buf n
    /\ both_outputs P
         (volk_32f_stddev_and_mean_32f_x2_u_avx (ops := B32.b32_ops)) buf n.
Proof.
  intros HR buf n Hn Hlen Hex.
  destruct (kernels_related (Taint.taints P) HR buf (map P buf) n
              (taint_buffer P buf)) as (R0 & R1 & R2 & R3 & R4).
  destruct (taint_kernels (map P buf) n Hn) as (T0 & T1 & T2 & T3 & T4);
    [now rewrite length_map | now rewrite taint_exists |].
  rewrite T0 in R0. rewrite T1 in R1. rewrite T2 in R2.
  rewrite T3 in R3. rewrite T4 in R4.
  repeat split; now apply both_outputs_of_rel.
Qed.

(** *** The fields of a pattern *)

Lemma exponent_field_lor (x y : Z) :
  Z.land (Z.shiftr (Z.lor x y) 23) 0xFF
  = Z.lor (Z.land (Z.shiftr x 23) 0xFF) (Z.land (Z.shiftr y 23) 0xFF).
Proof. now rewrite Z.shiftr_lor, Z.land_lor_distr_l. Qed.

Lemma lor_all_ones (a b m : Z) :
  Z.land a m = m -> Z.lor (Z.land a m) (Z.land b m) = m.
Proof.
  intros H. rewrite H. apply Z.bits_inj'. intros i _.
  rewrite Z.lor_spec, Z.land_spec.
  now destruct (Z.testbit m i), (Z.testbit b i).
Qed.

Lemma is_nonfinite_iff (x : Z) :
  is_nonfinite x = true <-> Z.land (Z.shiftr x 23) 0xFF = 255.
Proof.
  unfold is_nonfinite, B32.of_bits.
  assert (Hm : 0 <= Z.land x 0x7FFFFF)
    by (apply Z.land_nonneg; right; lia).
  destruct (Z.land (Z.shiftr x 23) 0xFF =? 0) eqn:E0.
  - apply Z.eqb_eq in E0. rewrite E0.
    destruct (Z.land x 0x7FFFFF); split; intros H; discriminate H.
  - destruct (Z.land (Z.shiftr x 23) 0xFF =? 255) eqn:E1.
    + apply Z.eqb_eq in E1.
      destruct (Z.land x 0x7FFFFF =? 0); split; intros _;
        [exact E1 | reflexivity | exact E1 | reflexivity].
    + apply Z.eqb_neq in E1.
      destruct (Z.land x 0x7FFFFF + 0x800000) eqn:Em; try lia;
        (split; [intros H; discriminate H | intros H; contradiction]).
Qed.

Lemma is_nan_iff (x : Z) :
  B32.is_nan x = true
  <-> Z.land (Z.shiftr x 23) 0xFF = 255 /\ Z.land x 0x7FFFFF <> 0.
Proof.
  unfold B32.is_nan, B32.of_bits.
  assert (Hm : 0 <= Z.land x 0x7FFFFF)
    by (apply Z.land_nonneg; right; lia).
  destruct (Z.land (Z.shiftr x 23) 0xFF =? 0) eqn:E0.
  - apply Z.eqb_eq in E0. rewrite E0.
    destruct (Z.land x 0x7FFFFF); split;
      try (intros H; discriminate H); intros (H & _); discriminate H.
  - destruct (Z.land (Z.shiftr x 23) 0xFF =? 255) eqn:E1.
    + apply Z.eqb_eq in E1.
      destruct (Z.land x 0x7FFFFF =? 0) eqn:E2.
      * apply Z.eqb_eq in E2. split; [intros H; discriminate H|].
        intros (_ & H). contradiction.
      * apply Z.eqb_neq in E2. split; [now split | reflexivity].
    + apply Z.eqb_neq in E1.
      destruct (Z.land x 0x7FFFFF + 0x800000) eqn:Em; try lia;
        (split; [intros H; discriminate H | intros (H & _); contradiction]).
Qed.

Lemma is_nonfinite_lor (x y : Z) :
  is_nonfinite x = true \/ is_nonfinite y = true ->
  is_nonfinite (Z.lor x y) = true.
Proof.
  rewrite !is_nonfinite_iff, exponent_field_lor. intros [H|H].
  - now apply lor_all_ones.
  - rewrite Z.lor_comm. now apply lor_all_ones.
Qed.

Lemma is_nan_lor (x y : Z) :
  B32.is_nan x = true \/ B32.is_nan y = true ->
  B32.is_nan (Z.lor x y) = true.
Proof.
  rewrite !is_nan_iff, exponent_field_lor, Z.land_lor_distr_l.
  intros [(He & Hm)|(He & Hm)]; split.
  - now apply lor_all_ones.
  - intros E. apply Z.lor_eq_0_iff in E. tauto.
  - rewrite Z.lor_comm. now apply lor_all_ones.
  - intros E. apply Z.lor_eq_0_iff in E. tauto.
Qed.

(** *** The operations carry NaN, and carry non-finiteness *)

Ltac float_cases x y :=
  unfold B32.is_nan, is_nonfinite, B32.add, B32.sub, B32.mul, B32.div,
    B32.sqrtf, B32.lift2;
  destruct (B32.of_bits x) as [[|]|[|]| |[|] ? ?];
  destruct (B32.of_bits y) as [[|]|[|]| |[|] ? ?];
  intros H; try discriminate H; try (destruct H as [H|H]; discriminate H);
  reflexivity.

Lemma nan_add (x y : Z) :
  B32.is_nan x = true \/ B32.is_nan y = true ->
  B32.is_nan (B32.add x y) = true.
Proof. float_cases x y. Qed.

Lemma nan_sub (x y : Z) :
  B32.is_nan x = true \/ B32.is_nan y = true ->
  B32.is_nan (B32.sub x y) = true.
Proof. float_cases x y. Qed.

Lemma nan_mul (x y : Z) :
  B32.is_nan x = true \/ B32.is_nan y = true ->
  B32.is_nan (B32.mul x y) = true.
Proof. float_cases x y. Qed.

Lemma nan_div (x y : Z) :
  B32.is_nan x = true -> B32.is_nan (B32.div x y) = true.
Proof. float_cases x y. Qed.

Lemma nan_sqrt (x : Z) :
  B32.is_nan x = true -> B32.is_nan (B32.sqrtf x) = true.
Proof. float_cases x x. Qed.

Lemma nonfinite_add (x y : Z) :
  is_nonfinite x = true \/ is_nonfinite y = true ->
  is_nonfinite (B32.add x y) = true.
Proof. float_cases x y. Qed.

Lemma nonfinite_sub (x y : Z) :
  is_nonfinite x = true \/ is_nonfinite y = true ->
  is_nonfinite (B32.sub x y) = true.
Proof. float_cases x y. Qed.

Lemma nonfinite_mul (x y : Z) :
  is_nonfinite x = true \/ is_nonfinite y = true ->
  is_nonfinite (B32.mul x y) = true.
Proof. float_cases x y. Qed.

Lemma nonfinite_div (x y : Z) :
  is_nonfinite x = true -> is_nonfinite (B32.div x y) = true.
Proof. float_cases x y. Qed.

Lemma nonfinite_sqrt (x : Z) :
  is_nonfinite x = true -> is_nonfinite (B32.sqrtf x) = true.
Proof. float_cases x x. Qed.

End Poison.

Lemma nan_carried :
  ops_related (Taint.taints B32.is_nan) B32.b32_ops Taint.taint_ops.
Proof.
  split; unfold Taint.taints; simpl.
  - intros H; discriminate H.
  - intros x1 x2 y1 y2 Hx Hy H. apply nan_add.
    destruct x2; [left; now apply Hx | right; now apply Hy].
  - intros x1 x2 y1 y2 Hx Hy H. apply nan_sub.
    destruct x2; [left; now apply Hx | right; now apply Hy].
  - intros x1 x2 y1 y2 Hx Hy H. apply nan_mul.
    destruct x2; [left; now apply Hx | right; now apply Hy].
  - intros x1 x2 y1 y2 Hx _ H. now apply nan_div, Hx.
  - intros x1 x2 Hx H. now apply nan_sqrt, Hx.
  - intros n H; discriminate H.
  - intros x1 x2 y1 y2 Hx Hy H. apply is_nan_lor.
    destruct x2; [left; now apply Hx | right; now apply Hy].
Qed.

Lemma nonfinite_carried :
  ops_related (Taint.taints is_nonfinite) B32.b32_ops Taint.taint_ops.
Proof.
  split; unfold Taint.taints; simpl.
  - intros H; discriminate H.
  - intros x1 x2 y1 y2 Hx Hy H. apply nonfinite_add.
    destruct x2; [left; now apply Hx | right; now apply Hy].
  - intros x1 x2 y1 y2 Hx Hy H. apply nonfinite_sub.
    destruct x2; [left; now apply Hx | right; now apply Hy].
  - intros x1 x2 y1 y2 Hx Hy H. apply nonfinite_mul.
    destruct x2; [left; now apply Hx | right; now apply Hy].
  - intros x1 x2 y1 y2 Hx _ H. now apply nonfinite_div, Hx.
  - intros x1 x2 Hx H. now apply nonfinite_sqrt, Hx.
  - intros n H; discriminate H.
  - intros x1 x2 y1 y2 Hx Hy H. apply is_nonfinite_lor.
    destruct x2; [left; now apply Hx | right; now apply Hy].
Qed.

(** X8: in binary32, when one of the first [num_points] samples is a NaN,
    every kernel writes a NaN to both outputs. *)
Theorem nan_sample_gives_nan_outputs :
  forall (buf : buffer Z) (n : Z),
    0 < n < UINT_MODULUS -> (Z.to_nat n <= length buf)%nat ->
    existsb B32.is_nan (firstn (Z.to_nat n) buf) = true ->
    both_outputs B32.is_nan
      (volk_32f_stddev_and_mean_32f_x2_generic (ops := B32.b32_ops)) buf n
    /\ both_outputs B32.is_nan
         (volk_32f_stddev_and_mean_32f_x2_a_sse (ops := B32.b32_ops)) buf n
    /\ both_outputs B32.is_nan
         (volk_32f_stddev_and_mean_32f_x2_a_sse4_1 (ops := B32.b32_ops))
         buf n
    /\ both_outputs B32.is_nan
         (volk_32f_stddev_and_mean_32f_x2_a_avx (ops := B32.b32_ops)) buf n
    /\ both_outputs B32.is_nan
         (volk_32f_stddev_and_mean_32f_x2_u_avx (ops := B32.b32_ops)) buf n.
Proof. exact (poison_reaches_outputs B32.is_nan nan_carried). Qed.

Lemma nan_sample_gives_nan_outputs_witness :
  both_outputs B32.is_nan
    (volk_32f_stddev_and_mean_32f_x2_a_sse4_1 (ops := B32.b32_ops))
    (repeat Consts.f1_0 10 ++ [B32.nan_bits] ++ repeat Consts.f2_0 9) 19.
Proof.
  apply (nan_sample_gives_nan_outputs
           (repeat Consts.f1_0 10 ++ [B32.nan_bits] ++ repeat Consts.f2_0 9)
           19);
    [unfold UINT_MODULUS; lia | simpl; lia | vm_compute; reflexivity].
Defined.

(** X9: in binary32, when one of the first [num_points] samples is an
    infinity or a NaN, every kernel writes an infinity or a NaN to both
    outputs: no finite mean or stddev comes out of such a buffer. *)
Theorem nonfinite_sample_gives_nonfinite_outputs :
  forall (buf : buffer Z) (n : Z),
    0 < n < UINT_MODULUS -> (Z.to_nat n <= length buf)%nat ->
    existsb is_nonfinite (firstn (Z.to_nat n) buf) = true ->
    both_outputs is_nonfinite
      (volk_32f_stddev_and_mean_32f_x2_generic (ops := B32.b32_ops)) buf n
    /\ both_outputs is_nonfinite
         (volk_32f_stddev_and_mean_32f_x2_a_sse (ops := B32.b32_ops)) buf n
    /\ both_outputs is_nonfinite
         (volk_32f_stddev_and_mean_32f_x2_a_sse4_1 (ops := B32.b32_ops))
         buf n
    /\ both_outputs is_nonfinite
         (volk_32f_stddev_and_mean_32f_x2_a_avx (ops := B32.b32_ops)) buf n
    /\ both_outputs is_nonfinite
         (volk_32f_stddev_and_mean_32f_x2_u_avx (ops := B32.b32_ops)) buf n.
Proof. exact (poison_reaches_outputs is_nonfinite nonfinite_carried). Qed.

Lemma nonfinite_sample_gives_nonfinite_outputs_witness :
  both_outputs is_nonfinite
    (volk_32f_stddev_and_mean_32f_x2_a_avx (ops := B32.b32_ops))
    (repeat Consts.f1_0 33 ++ [0x7F800000] ++ repeat Consts.f2_0 6) 40.
Proof.
  apply (nonfinite_sample_gives_nonfinite_outputs
           (repeat Consts.f1_0 33 ++ [0x7F800000] ++ repeat Consts.f2_0 6)
           40);
    [unfold UINT_MODULUS; lia | simpl; lia | vm_compute; reflexivity].
Defined.

(** The lane statements at work on binary32 buffers. *)

Lemma sse_lanes_are_strided_sums_witness :
  exists vs,
    a_sse_vector_loop (ops := B32.b32_ops)
      (map B32.of_uint [1; 2; 3; 4; 5; 6; 7; 8; 9]) 9 = Some vs
    /\ accumulator vs
       = mk128 (B32.of_uint 6) (B32.of_uint 8)
               (B32.of_uint 10) (B32.of_uint 12)
    /\ squareAccumulator vs
       = mk128 (B32.of_uint 26) (B32.of_uint 40)
               (B32.of_uint 58) (B32.of_uint 80).
Proof.
  eexists. split; [reflexivity|].
  destruct (sse_lanes_are_strided_sums (ops := B32.b32_ops)
              (map B32.of_uint [1; 2; 3; 4; 5; 6; 7; 8; 9]) 9 _ eq_refl)
    as (_ & -> & ->).
  split; reflexivity.
Defined.

Lemma sse4_1_lanes_are_strided_sums_witness :
  exists vs,
    a_sse4_1_vector_loop (ops := B32.b32_ops)
      (map (fun i => B32.of_uint (Z.of_nat i)) (seq 1 17)) 17 = Some vs
    /\ accumulator vs
       = mk128 (B32.of_uint 28) (B32.of_uint 32)
               (B32.of_uint 36) (B32.of_uint 40)
    /\ squareAccumulator vs
       = mk128 (B32.of_uint 30) (B32.of_uint 174)
               (B32.of_uint 446) (B32.of_uint 846).
Proof.
  eexists. split; [reflexivity|].
  destruct (sse4_1_lanes_are_strided_sums (ops := B32.b32_ops) b32_or_zero
              (map (fun i => B32.of_uint (Z.of_nat i)) (seq 1 17)) 17
              _ eq_refl) as (_ & -> & ->).
  split; reflexivity.
Defined.

Lemma avx_lanes_are_strided_sums_witness :
  exists vs,
    avx_vector_loop (ops := B32.b32_ops) _mm256_loadu_ps
      (map (fun i => B32.of_uint (Z.of_nat i)) (seq 1 33)) 33 = Some vs
    /\ lo128 (accumulator vs)
       = mk128 (B32.of_uint 52) (B32.of_uint 56)
               (B32.of_uint 60) (B32.of_uint 64)
    /\ lo128 (squareAccumulator vs)
       = mk128 (B32.of_uint 30) (B32.of_uint 446)
               (B32.of_uint 1374) (B32.of_uint 2814).
Proof.
  eexists. split; [reflexivity|].
  destruct (avx_lanes_are_strided_sums (ops := B32.b32_ops) b32_or_zero
              (map (fun i => B32.of_uint (Z.of_nat i)) (seq 1 33)) 33
              _ (or_intror eq_refl)) as (_ & -> & ->).
  split; reflexivity.
Defined.
